(** * A shallow embedding of bazelisk.py (the Python launcher)

    Strings are Stdlib strings of bytes: a Python [str] is represented by
    its UTF-8 encoding (the locale is assumed to be UTF-8) and the host is
    POSIX (posixpath, Linux error order).  The filesystem is a
    finite map from paths to nodes, the host facts read by the program
    ([os.environ], [os.getcwd()], [platform.machine()], the clock, the
    network) form a read-only environment, and the program is written in a
    reader/state/exception monad whose exceptions, as in Python, do not undo
    the state changes made before they are raised. *)

From Stdlib Require Import ZArith Lia Ascii String.
From stdpp Require Import base gmap strings list.

Open Scope string_scope.

(** ** String helpers of the Python standard library *)
Module PyStr.

Definition slash : ascii := "/"%char.

(** Position of the last ['/'] in [s] ([str.rfind]). *)
Fixpoint rfind_slash (s : string) : option nat :=
  match s with
  | EmptyString => None
  | String a s' =>
      match rfind_slash s' with
      | Some i => Some (S i)
      | None => if Ascii.eqb a slash then Some 0 else None
      end
  end.

Fixpoint take (n : nat) (s : string) : string :=
  match n, s with
  | O, _ => EmptyString
  | S n', EmptyString => EmptyString
  | S n', String a s' => String a (take n' s')
  end.

Fixpoint drop (n : nat) (s : string) : string :=
  match n, s with
  | O, _ => s
  | S n', EmptyString => EmptyString
  | S n', String a s' => drop n' s'
  end.

Fixpoint all_slashes (s : string) : bool :=
  match s with
  | EmptyString => true
  | String a s' => Ascii.eqb a slash && all_slashes s'
  end.

(** [s.rstrip('/')] *)
Fixpoint rstrip_slash (s : string) : string :=
  match s with
  | EmptyString => EmptyString
  | String a s' =>
      let r := rstrip_slash s' in
      if Ascii.eqb a slash && String.eqb r EmptyString then EmptyString
      else String a r
  end.

(** [posixpath.dirname]:
<<
    i = p.rfind(sep) + 1
    head = p[:i]
    if head and head != sep*len(head):
        head = head.rstrip(sep)
    return head
>> *)
Definition dirname (p : string) : string :=
  let i := match rfind_slash p with Some k => S k | None => O end in
  let head := take i p in
  if negb (String.eqb head EmptyString) && negb (all_slashes head)
  then rstrip_slash head else head.

Fixpoint ends_with_slash (s : string) : bool :=
  match s with
  | EmptyString => false
  | String a EmptyString => Ascii.eqb a slash
  | String _ s' => ends_with_slash s'
  end.

Definition starts_with_slash (s : string) : bool :=
  match s with
  | String a _ => Ascii.eqb a slash
  | EmptyString => false
  end.

(** [posixpath.join(a, b)] for two components:
<<
    if b.startswith(sep): path = b
    elif not path or path.endswith(sep): path += b
    else: path += sep + b
>> *)
Definition path_join (a b : string) : string :=
  if starts_with_slash b then b
  else if String.eqb a EmptyString || ends_with_slash a then a ++ b
  else a ++ "/" ++ b.

(** Python strings are represented by their UTF-8 encoding, file
    contents by their bytes.  [utf8_chars] cuts well-formed UTF-8 into the
    encodings of its code points, as CPython's strict "utf-8" codec reads
    it (no overlong forms, no surrogates, nothing above U+10FFFF); [None]
    is a [UnicodeDecodeError]. *)
Definition in_range (lo hi : nat) (a : ascii) : bool :=
  let n := nat_of_ascii a in ((lo <=? n) && (n <=? hi))%nat.

Definition is_cont (a : ascii) : bool := in_range 128 191 a.

(** The admissible second byte after the lead byte [a]. *)
Definition second_ok (a b : ascii) : bool :=
  let n := nat_of_ascii a in
  if Nat.eqb n 224 then in_range 160 191 b
  else if Nat.eqb n 237 then in_range 128 159 b
  else if Nat.eqb n 240 then in_range 144 191 b
  else if Nat.eqb n 244 then in_range 128 143 b
  else is_cont b.

Fixpoint utf8_chars (s : string) : option (list string) :=
  match s with
  | EmptyString => Some []
  | String a r =>
      if in_range 0 127 a then option_map (cons (String a EmptyString)) (utf8_chars r)
      else if in_range 194 223 a then
        match r with
        | String b r2 =>
            if is_cont b then option_map (cons (String a (String b EmptyString))) (utf8_chars r2)
            else None
        | EmptyString => None
        end
      else if in_range 224 239 a then
        match r with
        | String b (String c r3) =>
            if second_ok a b && is_cont c
            then option_map (cons (String a (String b (String c EmptyString)))) (utf8_chars r3)
            else None
        | _ => None
        end
      else if in_range 240 244 a then
        match r with
        | String b (String c (String d r4)) =>
            if second_ok a b && is_cont c && is_cont d
            then option_map (cons (String a (String b (String c (String d EmptyString)))))
                   (utf8_chars r4)
            else None
        | _ => None
        end
      else None
  end.

(** Universal newlines of text-mode reading: "\r\n" and a lone "\r"
    become "\n".  (In UTF-8 these bytes only occur as themselves.) *)
Fixpoint universal_newlines (s : string) : string :=
  match s with
  | EmptyString => EmptyString
  | String a r =>
      if Ascii.eqb a "013"%char then
        match r with
        | String b r' =>
            if Ascii.eqb b "010"%char then String "010"%char (universal_newlines r')
            else String "010"%char (universal_newlines r)
        | EmptyString => String "010"%char EmptyString
        end
      else String a (universal_newlines r)
  end.

(** [open(p, 'r').read()] applied to the bytes of [p] (UTF-8 locale,
    [newline=None]): [None] is a [UnicodeDecodeError]. *)
Definition decode_text (data : string) : option string :=
  match utf8_chars data with
  | Some _ => Some (universal_newlines data)
  | None => None
  end.

(** [str.isspace] on one ASCII character: \t \n \v \f \r, the
    separators \x1c..\x1f, and the space. *)
Definition is_space (a : ascii) : bool :=
  let n := nat_of_ascii a in
  (((9 <=? n) && (n <=? 13)) || ((28 <=? n) && (n <=? 32)))%nat.

Definition byte_is (n : nat) (a : ascii) : bool := Nat.eqb (nat_of_ascii a) n.

(** [str.isspace] on one code point, given by its UTF-8 encoding: the ASCII
    ones, U+0085, U+00A0, U+1680, U+2000..U+200A, U+2028, U+2029, U+202F,
    U+205F and U+3000. *)
Definition is_space_char (c : string) : bool :=
  match c with
  | String a EmptyString => is_space a
  | String a (String b EmptyString) => byte_is 194 a && (byte_is 133 b || byte_is 160 b)
  | String a (String b (String c EmptyString)) =>
      (byte_is 225 a && byte_is 154 b && byte_is 128 c) ||
      (byte_is 226 a && byte_is 128 b &&
         (in_range 128 138 c || byte_is 168 c || byte_is 169 c || byte_is 175 c)) ||
      (byte_is 226 a && byte_is 129 b && byte_is 159 c) ||
      (byte_is 227 a && byte_is 128 b && byte_is 128 c)
  | _ => false
  end.

Fixpoint drop_spaces (cs : list string) : list string :=
  match cs with
  | [] => []
  | c :: cs' => if is_space_char c then drop_spaces cs' else cs
  end.

(** [str.strip()] on a decoded string.  Every string it is applied to comes
    from [decode_text], hence is well-formed UTF-8; the [None] case is
    never reached. *)
Definition strip (s : string) : string :=
  match utf8_chars s with
  | Some cs => String.concat "" (rev (drop_spaces (rev (drop_spaces cs))))
  | None => s
  end.

Definition lower_char (a : ascii) : ascii :=
  let n := nat_of_ascii a in
  if ((65 <=? n) && (n <=? 90))%nat then ascii_of_nat (n + 32)%nat else a.

(** [str.lower()] *)
Fixpoint lower (s : string) : string :=
  match s with
  | EmptyString => EmptyString
  | String a s' => String (lower_char a) (lower s')
  end.

(** [s.split('/')[-1]]: the text after the last ['/']. *)
Definition last_segment (s : string) : string :=
  drop (match rfind_slash s with Some k => S k | None => O end) s.

Fixpoint has_slash (s : string) : bool :=
  match s with
  | EmptyString => false
  | String a s' => Ascii.eqb a slash || has_slash s'
  end.

End PyStr.
(** ** Host, filesystem and the program monad *)
Module Py.
Import PyStr.

(** What the process may do to a node, as the kernel decides it from the
    owner, the permission bits and the mount (root may do everything but
    write to a read-only mount): open it for writing (for a directory:
    create entries in it), [chmod] it (it owns it), and whether it lies on
    a read-only filesystem. *)
Record access := mkAccess {
  may_write : bool;
  may_chmod : bool;
  on_rofs : bool
}.

(** The rights on what the process creates itself. *)
Definition own : access := mkAccess true true false.

(** A regular file: its bytes, its last-modified time (seconds), whether the
    process may read it, its permission bits, and the other rights. *)
Record file := mkFile {
  f_data : string;
  f_mtime : Z;
  f_readable : bool;
  f_mode : Z;
  f_acc : access
}.

Inductive node :=
| RegFile (f : file)
| Dir (d_mtime : Z) (d_mode : Z) (d_acc : access).

Definition node_mode (n : node) : Z :=
  match n with RegFile f => f_mode f | Dir _ m _ => m end.

Definition node_acc (n : node) : access :=
  match n with RegFile f => f_acc f | Dir _ _ a => a end.

(** One server answer to [urlopen(url)]: the [Content-Length] header and
    the successive results of [u.read(1024)]; a [ChunkFail] is a broken
    connection.  When the list runs out, [read] returns [b""]. *)
Inductive chunk := Chunk (b : string) | ChunkFail.

Record response := mkResponse {
  content_length : option Z;
  body : list chunk
}.

(** What the program reads from its host and never changes. *)
Record host := mkHost {
  environ : gmap string string;
  cwd : string;
  home : string;
  machine : string;            (* platform.machine() *)
  system : string;             (* platform.system() *)
  now : Z;                     (* time.time() *)
  latest_redirect : option string;
    (* final URL of the HEAD request to releases/latest; None: it fails *)
  serve : string -> option response;
    (* answer to a GET of a URL; None: the request fails *)
  spawn_exit : string -> list string -> Z;
  walk_frames : nat
    (* how many nested calls of find_workspace_root CPython runs before it
       raises RecursionError: sys.getrecursionlimit() less the frames below
       the first call (<module>, main, decide_which_bazel_version_to_use)
       and those of the os.path helpers each call makes; 995 for the script
       under CPython 3.11 with the default limit of 1000 *)
}.

(** Observable effects, most recent first. *)
Inductive event :=
| ENet (url : string)
| ESpawn (path : string) (args : list string).

Record state := mkState {
  fs : gmap string node;
  log : list event
}.

Inductive exc :=
| FileNotFoundError
| FileExistsError
| PermissionError
| IsADirectoryError
| NetworkError
| TypeError
| ZeroDivisionError
| RecursionError
| NotADirectoryError
| ReadOnlyFileSystem            (* OSError with errno EROFS *)
| UnicodeDecodeError
| UnsupportedPlatform (msg : string).

Definition M (A : Type) : Type := host -> state -> (exc + A) * state.

Definition ret {A} (x : A) : M A := fun _ s => (inr x, s).
Definition raise {A} (e : exc) : M A := fun _ s => (inl e, s).
Definition bind {A B} (m : M A) (k : A -> M B) : M B :=
  fun h s => match m h s with
             | (inl e, s') => (inl e, s')
             | (inr x, s') => k x h s'
             end.
Definition ask : M host := fun h s => (inr h, s).
Definition get_fs : M (gmap string node) := fun _ s => (inr (fs s), s).
Definition put_fs (m : gmap string node) : M unit :=
  fun _ s => (inr tt, mkState m (log s)).
Definition emit (e : event) : M unit :=
  fun _ s => (inr tt, mkState (fs s) (e :: log s)).

(** [try: m except FileNotFoundError: k]: the state reached when the
    exception is raised is kept. *)
Definition try_fnf {A} (m : M A) (k : M A) : M A :=
  fun h s => match m h s with
             | (inl FileNotFoundError, s') => k h s'
             | r => r
             end.

Notation "x <- m ;; k" := (bind m (fun x => k))
  (at level 100, m at next level, right associativity).
Notation "m ;;; k" := (bind m (fun _ => k))
  (at level 100, right associativity).

(** *** [os] primitives *)

Definition path_exists (m : gmap string node) (p : string) : bool :=
  match m !! p with Some _ => true | None => false end.

(** [os.path.exists] *)
Definition exists_ (p : string) : M bool :=
  m <- get_fs ;; ret (path_exists m p).

(** [open(p, 'r').read()]: text mode, so the bytes are decoded and the
    newlines translated. *)
Definition read_file (p : string) : M string :=
  m <- get_fs ;;
  match m !! p with
  | Some (RegFile f) =>
      if f_readable f then
        match decode_text (f_data f) with
        | Some t => ret t
        | None => raise UnicodeDecodeError
        end
      else raise PermissionError
  | Some (Dir _ _ _) => raise IsADirectoryError
  | None => raise FileNotFoundError
  end.

(** [open(p, 'w').write(d)] (and ['wb']; [d] is already the bytes written,
    with POSIX newlines).  Linux checks, in this order: a directory at [p]
    (EISDIR); for an existing file a read-only mount (EROFS), then the
    write permission (EACCES), and the file keeps its mode and rights; for
    a new file the parent (ENOENT, ENOTDIR), its mount and its write
    permission, and the file is created with mode 0o644 (umask 022). *)
Definition write_file (p d : string) : M unit :=
  h <- ask ;; m <- get_fs ;;
  match m !! p with
  | Some (Dir _ _ _) => raise IsADirectoryError
  | Some (RegFile f) =>
      if on_rofs (f_acc f) then raise ReadOnlyFileSystem
      else if negb (may_write (f_acc f)) then raise PermissionError
      else put_fs (<[p := RegFile (mkFile d (now h) (f_readable f) (f_mode f) (f_acc f))]> m)
  | None =>
      match m !! dirname p with
      | Some (Dir _ _ a) =>
          if on_rofs a then raise ReadOnlyFileSystem
          else if negb (may_write a) then raise PermissionError
          else put_fs (<[p := RegFile (mkFile d (now h) true 420 own)]> m)
      | Some (RegFile _) => raise NotADirectoryError
      | None => raise FileNotFoundError
      end
  end.

(** [os.path.getmtime] *)
Definition getmtime (p : string) : M Z :=
  m <- get_fs ;;
  match m !! p with
  | Some (RegFile f) => ret (f_mtime f)
  | Some (Dir t _ _) => ret t
  | None => raise FileNotFoundError
  end.

(** [os.chmod]: a read-only mount (EROFS) is checked before the owner
    (EPERM). *)
Definition chmod (p : string) (mode : Z) : M unit :=
  m <- get_fs ;;
  match m !! p with
  | Some n =>
      if on_rofs (node_acc n) then raise ReadOnlyFileSystem
      else if negb (may_chmod (node_acc n)) then raise PermissionError
      else
        match n with
        | RegFile f =>
            put_fs (<[p := RegFile (mkFile (f_data f) (f_mtime f) (f_readable f) mode (f_acc f))]> m)
        | Dir t _ a => put_fs (<[p := Dir t mode a]> m)
        end
  | None => raise FileNotFoundError
  end.

(** [os.mkdir] (mode 0o777 less the usual umask): EEXIST first, then the
    parent (ENOENT, ENOTDIR), its mount (EROFS) and its write permission
    (EACCES). *)
Definition mkdir (p : string) : M unit :=
  h <- ask ;; m <- get_fs ;;
  match m !! p with
  | Some _ => raise FileExistsError
  | None =>
      match m !! dirname p with
      | Some (Dir _ _ a) =>
          if on_rofs a then raise ReadOnlyFileSystem
          else if negb (may_write a) then raise PermissionError
          else put_fs (<[p := Dir (now h) 493 own]> m)
      | Some (RegFile _) => raise NotADirectoryError
      | None => raise FileNotFoundError
      end
  end.

(** [os.makedirs(p, exist_ok=True)]: create the missing ancestors first
    (at most one per character of [p]), then [p].  The
    [except FileExistsError: pass] around the recursive call never fires,
    since that call is only made on a missing path; CPython's recursion
    limit, which only a path with some 990 missing ancestors would reach,
    is not modelled here. *)
Fixpoint makedirs_aux (fuel : nat) (p : string) : M unit :=
  match fuel with
  | O => ret tt
  | S fuel' =>
      m <- get_fs ;;
      match m !! p with
      | Some (Dir _ _ _) => ret tt
      | Some (RegFile _) => raise FileExistsError
      | None =>
          let head := dirname p in
          (if negb (String.eqb head EmptyString) && negb (String.eqb head p)
              && negb (path_exists m head)
           then makedirs_aux fuel' head else ret tt) ;;;
          mkdir p
      end
  end.

Definition makedirs (p : string) : M unit := makedirs_aux (S (String.length p)) p.

End Py.

(** ** The program *)
Module Bazelisk.
Import PyStr Py.

Definition ONE_HOUR : Z := 1 * 60 * 60.

(** [find_workspace_root(root)].  Each call of the Python function is one
    unit of [fuel]; running out of it is CPython's [RecursionError].  The
    walk starts with the frames the host leaves it ([walk_frames]). *)
Fixpoint find_workspace_root_aux (fuel : nat) (root : string) : M (option string) :=
  match fuel with
  | O => raise RecursionError
  | S fuel' =>
      e <- exists_ (path_join root "WORKSPACE") ;;
      if e then ret (Some root) else
      let new_root := dirname root in
      if negb (String.eqb new_root root) then find_workspace_root_aux fuel' new_root
      else ret None
  end.

Definition find_workspace_root (root : option string) : M (option string) :=
  h <- ask ;;
  let root := match root with Some r => r | None => cwd h end in
  find_workspace_root_aux (walk_frames h) root.

(** [decide_which_bazel_version_to_use()] *)
Definition decide_which_bazel_version_to_use : M string :=
  h <- ask ;;
  match environ h !! "USE_BAZEL_VERSION" with
  | Some v => ret v
  | None =>
      r <- try_fnf
             (workspace_root <- find_workspace_root None ;;
              match workspace_root with
              | Some root =>
                  if String.eqb root EmptyString then ret None
                  else s <- read_file (path_join root ".bazelversion") ;;
                       ret (Some (strip s))
              | None => ret None
              end)
             (ret None) ;;
      match r with
      | Some v => ret v
      | None => ret "latest"
      end
  end.

Definition latest_url : string := "https://github.com/bazelbuild/bazel/releases/latest".

(** [resolve_latest_version()]: a HEAD request; the version is the last
    path segment of the URL reached after the redirects. *)
Definition resolve_latest_version : M string :=
  emit (ENet latest_url) ;;;
  h <- ask ;;
  match latest_redirect h with
  | Some u => ret (last_segment u)
  | None => raise NetworkError
  end.

(** [resolve_version_label_to_number(bazelisk_directory, version)] *)
Definition resolve_version_label_to_number (bazelisk_directory version : string) : M string :=
  if String.eqb version "latest" then
    let latest_cache := path_join bazelisk_directory "latest_bazel" in
    r <- try_fnf
           (h <- ask ;;
            t <- getmtime latest_cache ;;
            if (Z.abs (now h - t) <? ONE_HOUR)%Z then
              s <- read_file latest_cache ;; ret (Some (strip s))
            else ret None)
           (ret None) ;;
    match r with
    | Some v => ret v
    | None =>
        latest_version <- resolve_latest_version ;;
        write_file latest_cache latest_version ;;;
        ret latest_version
    end
  else ret version.

Definition supported_os (os : string) : bool :=
  String.eqb os "linux" || String.eqb os "darwin" || String.eqb os "windows".

(** [determine_bazel_filename(version)] *)
Definition determine_bazel_filename (version : string) : M string :=
  h <- ask ;;
  let machine := machine h in
  if negb (String.eqb machine "x86_64") then
    raise (UnsupportedPlatform ("Unsupported machine architecture '" ++ machine
             ++ "'. Bazel currently only supports x86_64."))
  else
    let operating_system := lower (system h) in
    if negb (supported_os operating_system) then
      raise (UnsupportedPlatform ("Unsupported operating system '" ++ operating_system
               ++ "'. Bazel currently only supports Linux, macOS and Windows."))
    else ret ("bazel-" ++ version ++ "-" ++ operating_system ++ "-" ++ machine).

(** The [while True] loop of [download_bazel_into_directory]: [blocks] is
    [data_blocks], [total] the running byte count, [file_total_bytes] the
    [Content-Length]; the result is [b"".join(data_blocks)]. *)
Fixpoint read_blocks (file_total_bytes : Z) (blocks : list string) (total : Z)
    (stream : list chunk) : M string :=
  match stream with
  | [] =>
      (* u.read(1024) at end of stream returns b"" *)
      let blocks := app blocks [EmptyString] in
      if Z.eqb file_total_bytes 0 then raise ZeroDivisionError
      else ret (String.concat "" blocks)
  | ChunkFail :: _ => raise NetworkError
  | Chunk block :: rest =>
      let blocks := app blocks [block] in
      let total := (total + Z.of_nat (String.length block))%Z in
      (* hash = ((60*total)//fileTotalbytes) *)
      if Z.eqb file_total_bytes 0 then raise ZeroDivisionError
      else if Nat.eqb (String.length block) 0 then ret (String.concat "" blocks)
      else read_blocks file_total_bytes blocks total rest
  end.

Definition release_url (version bazel_filename : string) : string :=
  "https://releases.bazel.build/" ++ version ++ "/release/" ++ bazel_filename.

(** [u = urlopen(url)], [int(meta.get("Content-Length"))] and the read loop. *)
Definition fetch (url : string) : M string :=
  emit (ENet url) ;;;
  h <- ask ;;
  match serve h url with
  | None => raise NetworkError
  | Some u =>
      match content_length u with
      | None => raise TypeError       (* int(None) *)
      | Some file_total_bytes => read_blocks file_total_bytes [] 0%Z (body u)
      end
  end.

(** [download_bazel_into_directory(version, directory)] *)
Definition download_bazel_into_directory (version directory : string) : M string :=
  bazel_filename <- determine_bazel_filename version ;;
  let url := release_url version bazel_filename in
  let destination_path := path_join directory bazel_filename in
  e <- exists_ destination_path ;;
  (if negb e then
     data <- fetch url ;;
     write_file destination_path data
   else ret tt) ;;;
  chmod destination_path 493 ;;;        (* 0o755 *)
  ret destination_path.

(** [main(argv)]: the exit code of the spawned Bazel. *)
Definition main (argv : list string) : M Z :=
  h <- ask ;;
  let bazelisk_directory := path_join (home h) ".bazelisk" in
  makedirs bazelisk_directory ;;;
  bazel_version <- decide_which_bazel_version_to_use ;;
  bazel_version <- resolve_version_label_to_number bazelisk_directory bazel_version ;;
  let bazel_directory := path_join bazelisk_directory "bin" in
  makedirs bazel_directory ;;;
  bazel_path <- download_bazel_into_directory bazel_version bazel_directory ;;
  emit (ESpawn bazel_path (tl argv)) ;;;
  ret (spawn_exit h bazel_path (tl argv)).

End Bazelisk.

(** ** Lemmas on the string helpers *)
Module PyStrFacts.
Import PyStr.

(** stdpp marks [String.append] [simpl never]; these unfold it. *)
Lemma append_nil_l (b : string) : EmptyString ++ b = b.
Proof. reflexivity. Qed.

Lemma append_cons (c : ascii) (a b : string) : String c a ++ b = String c (a ++ b).
Proof. reflexivity. Qed.

Lemma length_append (a b : string) :
  String.length (a ++ b) = (String.length a + String.length b)%nat.
Proof.
  induction a as [|c a IH]; [reflexivity|].
  rewrite append_cons. simpl. now rewrite IH.
Qed.

Lemma append_assoc (a b c : string) : (a ++ b) ++ c = a ++ (b ++ c).
Proof. induction a as [|x a IH]; [reflexivity | exact (f_equal (String x) IH)]. Qed.

Lemma take_drop (n : nat) (s : string) : s = take n s ++ drop n s.
Proof.
  revert s; induction n as [|n IH]; intros [|c s]; simpl; try reflexivity.
  rewrite append_cons. now rewrite <- IH.
Qed.

Lemma rstrip_slash_prefix (s : string) : exists t, s = rstrip_slash s ++ t.
Proof.
  induction s as [|c s [t Ht]]; simpl.
  - now exists EmptyString.
  - destruct (Ascii.eqb c slash && String.eqb (rstrip_slash s) EmptyString) eqn:E.
    + exists (String c s). reflexivity.
    + exists t. rewrite append_cons. now rewrite <- Ht.
Qed.

(** [dirname p] is a prefix of [p]. *)
Lemma dirname_prefix (p : string) : exists t, p = dirname p ++ t.
Proof.
  unfold dirname.
  set (i := match rfind_slash p with Some k => S k | None => O end).
  destruct (negb (String.eqb (take i p) EmptyString) && negb (all_slashes (take i p))).
  - destruct (rstrip_slash_prefix (take i p)) as [t Ht].
    exists (t ++ drop i p).
    rewrite (take_drop i p) at 1. rewrite Ht at 1.
    rewrite append_assoc. reflexivity.
  - exists (drop i p). apply take_drop.
Qed.

Lemma append_nil_r (a : string) : a ++ EmptyString = a.
Proof. induction a as [|c a IH]; [reflexivity | exact (f_equal (String c) IH)]. Qed.

Lemma dirname_length (p : string) : (String.length (dirname p) <= String.length p)%nat.
Proof.
  destruct (dirname_prefix p) as [t Ht].
  rewrite Ht at 2. rewrite length_append. lia.
Qed.

(** A step of the walk that moves makes the path strictly shorter. *)
Lemma dirname_shorter (p : string) :
  dirname p <> p -> (String.length (dirname p) < String.length p)%nat.
Proof.
  intros Hne. destruct (dirname_prefix p) as [t Ht].
  destruct t as [|c t].
  - exfalso. apply Hne. rewrite append_nil_r in Ht. now symmetry.
  - rewrite Ht at 2. rewrite length_append. simpl. lia.
Qed.

(** The segment after the last slash holds no slash. *)
Lemma rfind_slash_none (s : string) : rfind_slash s = None -> has_slash s = false.
Proof.
  induction s as [|c s IH]; simpl; [reflexivity|].
  destruct (rfind_slash s); [discriminate|].
  destruct (Ascii.eqb c slash); [discriminate|]. intros _. simpl. now apply IH.
Qed.

Lemma last_segment_no_slash (s : string) : has_slash (last_segment s) = false.
Proof.
  unfold last_segment.
  induction s as [|c s IH]; simpl; [reflexivity|].
  destruct (rfind_slash s) as [k|] eqn:E.
  - exact IH.
  - destruct (Ascii.eqb c slash) eqn:Ec; simpl.
    + now apply rfind_slash_none.
    + rewrite Ec. simpl. now apply rfind_slash_none.
Qed.

Lemma rfind_slash_trailing (s : string) :
  ends_with_slash s = true -> rfind_slash s = Some (pred (String.length s)).
Proof.
  induction s as [|c s IH]; [discriminate|].
  destruct s as [|c' s'].
  - simpl. intros Hc. now rewrite Hc.
  - intros Hs.
    change (rfind_slash (String c (String c' s'))) with
      (match rfind_slash (String c' s') with
       | Some i => Some (S i)
       | None => if Ascii.eqb c slash then Some 0 else None
       end).
    rewrite (IH Hs). reflexivity.
Qed.

Lemma drop_length (s : string) : drop (String.length s) s = EmptyString.
Proof. induction s as [|c s IH]; [reflexivity | exact IH]. Qed.

Lemma rfind_slash_app (x y : string) :
  rfind_slash (x ++ y) =
  match rfind_slash y with Some i => Some (String.length x + i)%nat | None => rfind_slash x end.
Proof.
  induction x as [|c x IH].
  - rewrite append_nil_l. simpl. now destruct (rfind_slash y).
  - rewrite append_cons. simpl. rewrite IH. now destruct (rfind_slash y).
Qed.

Lemma take_app (x y : string) (n : nat) :
  take (String.length x + n) (x ++ y) = x ++ take n y.
Proof.
  induction x as [|c x IH]; [reflexivity|].
  rewrite !append_cons. simpl. now rewrite IH.
Qed.

Lemma all_slashes_app (x y : string) :
  all_slashes (x ++ y) = all_slashes x && all_slashes y.
Proof.
  induction x as [|c x IH]; [reflexivity|].
  rewrite append_cons. simpl. rewrite IH. apply andb_assoc.
Qed.

Lemma append_eq_nil (x y : string) : x ++ y = EmptyString -> y = EmptyString.
Proof. destruct x as [|c x]; [auto|]. rewrite append_cons. discriminate. Qed.

Lemma rstrip_slash_app (x y : string) :
  rstrip_slash (x ++ y) =
  if String.eqb (rstrip_slash y) EmptyString then rstrip_slash x else x ++ rstrip_slash y.
Proof.
  induction x as [|c x IH].
  - rewrite append_nil_l. simpl.
    destruct (String.eqb (rstrip_slash y) EmptyString) eqn:E; [|reflexivity].
    now apply String.eqb_eq in E.
  - rewrite append_cons. simpl. rewrite IH.
    destruct (String.eqb (rstrip_slash y) EmptyString) eqn:E; [reflexivity|].
    destruct (String.eqb (x ++ rstrip_slash y) EmptyString) eqn:E2.
    + apply String.eqb_eq, append_eq_nil in E2. rewrite E2 in E. discriminate.
    + rewrite andb_false_r, append_cons. reflexivity.
Qed.

(** The parent of [x/a], for an [x] that is not all slashes and has no
    trailing slash, is [x]. *)
Lemma dirname_snoc (x : string) :
  all_slashes x = false -> rstrip_slash x = x -> dirname (x ++ "/a") = x.
Proof.
  intros Ha Hr. unfold dirname. rewrite rfind_slash_app.
  change (rfind_slash "/a") with (Some 0). cbv beta iota.
  rewrite Nat.add_0_r, <- Nat.add_1_r, take_app. change (take 1 "/a") with "/".
  assert (Hne : String.eqb (x ++ "/") EmptyString = false)
    by (destruct x as [|c x]; [discriminate | reflexivity]).
  rewrite Hne, all_slashes_app, Ha. simpl.
  rewrite rstrip_slash_app. exact Hr.
Qed.

(** A URL ending in '/' has an empty last segment. *)
Lemma last_segment_trailing (s : string) :
  ends_with_slash s = true -> last_segment s = EmptyString.
Proof.
  intros Hs. unfold last_segment. rewrite (rfind_slash_trailing s Hs).
  destruct s as [|c s']; [discriminate|]. apply drop_length.
Qed.

End PyStrFacts.

(** ** Lemmas on the program *)
Module ProgramFacts.
Import PyStr Py Bazelisk PyStrFacts.

Lemma bind_inr {A B} (m : M A) (k : A -> M B) (h : host) (s s' : state) (x : A) :
  m h s = (inr x, s') -> bind m k h s = k x h s'.
Proof. intros H. unfold bind. now rewrite H. Qed.

Lemma bind_inl {A B} (m : M A) (k : A -> M B) (h : host) (s s' : state) (e : exc) :
  m h s = (inl e, s') -> bind m k h s = (inl e, s').
Proof. intros H. unfold bind. now rewrite H. Qed.

Lemma bind_bind_inr {A B C} (m : M A) (k : A -> M B) (k' : B -> M C)
    (h : host) (s s' : state) (x : A) :
  m h s = (inr x, s') -> bind (bind m k) k' h s = bind (k x) k' h s'.
Proof. intros H. unfold bind. now rewrite H. Qed.

Lemma ret_eq {A} (x : A) (h : host) (s : state) : ret x h s = (inr x, s).
Proof. reflexivity. Qed.

Lemma exists_eq (p : string) (h : host) (s : state) :
  exists_ p h s = (inr (path_exists (fs s) p), s).
Proof. reflexivity. Qed.

Lemma path_exists_false (m : gmap string node) (p : string) :
  path_exists m p = false <-> m !! p = None.
Proof. unfold path_exists. destruct (m !! p); split; congruence. Qed.

Lemma path_exists_true (m : gmap string node) (p : string) :
  path_exists m p = true <-> exists n, m !! p = Some n.
Proof.
  unfold path_exists. destruct (m !! p); split; intros H; eauto; try discriminate.
  destruct H; discriminate.
Qed.

Lemma ask_eq (h : host) (s : state) : ask h s = (inr h, s).
Proof. reflexivity. Qed.

Lemma get_fs_eq (h : host) (s : state) : get_fs h s = (inr (fs s), s).
Proof. reflexivity. Qed.

(** [d] is [p] or is reached from [p] by repeated [dirname]. *)
Inductive ancestor (p : string) : string -> Prop :=
| anc_self : ancestor p p
| anc_parent (q : string) : ancestor p q -> ancestor p (dirname q).

Lemma ancestor_step (p d : string) : ancestor (dirname p) d -> ancestor p d.
Proof.
  induction 1 as [|q _ IH].
  - apply anc_parent, anc_self.
  - now apply anc_parent.
Qed.

Lemma find_aux_S (fuel : nat) (root : string) (h : host) (s : state) :
  find_workspace_root_aux (S fuel) root h s =
  if path_exists (fs s) (path_join root "WORKSPACE") then (inr (Some root), s)
  else if negb (String.eqb (dirname root) root)
       then find_workspace_root_aux fuel (dirname root) h s
       else (inr None, s).
Proof.
  unfold find_workspace_root_aux at 1; fold find_workspace_root_aux.
  unfold exists_, bind, get_fs, ret. cbv beta iota.
  destruct (path_exists (fs s) (path_join root "WORKSPACE")); [reflexivity|].
  now destruct (negb (String.eqb (dirname root) root)).
Qed.

(** With one frame per character the walk never runs out of frames and
    reads the filesystem only. *)
Lemma find_aux_total (fuel : nat) (root : string) (h : host) (s : state) :
  (String.length root < fuel)%nat ->
  exists o, find_workspace_root_aux fuel root h s = (inr o, s).
Proof.
  revert root; induction fuel as [|fuel IH]; intros root Hlt; [lia|].
  rewrite find_aux_S.
  destruct (path_exists (fs s) (path_join root "WORKSPACE")); [eauto|].
  destruct (String.eqb (dirname root) root) eqn:E; simpl; [eauto|].
  apply IH. apply String.eqb_neq in E. apply dirname_shorter in E. lia.
Qed.

Lemma find_aux_none (fuel : nat) (root : string) (h : host) (s : state) :
  (String.length root < fuel)%nat ->
  (forall d, ancestor root d -> path_exists (fs s) (path_join d "WORKSPACE") = false) ->
  find_workspace_root_aux fuel root h s = (inr None, s).
Proof.
  revert root; induction fuel as [|fuel IH]; intros root Hlt Hno; [lia|].
  rewrite find_aux_S, (Hno root (anc_self root)).
  destruct (String.eqb (dirname root) root) eqn:E; simpl; [reflexivity|].
  apply IH.
  - apply String.eqb_neq in E. apply dirname_shorter in E. lia.
  - intros d Hd. apply Hno. now apply ancestor_step.
Qed.

Lemma ancestor_inv (p d : string) : ancestor p d -> d = p \/ ancestor (dirname p) d.
Proof.
  induction 1 as [|q _ [->|IH]].
  - now left.
  - right. apply anc_self.
  - right. now apply anc_parent.
Qed.

Lemma ancestor_fixed (p d : string) : dirname p = p -> ancestor p d -> d = p.
Proof. intros Hp. induction 1 as [|q _ IH]; [reflexivity|]. subst q. exact Hp. Qed.

(** What the walk returns: a [Some r] is an ancestor holding [WORKSPACE];
    [None] means no ancestor holds it. *)
Lemma find_aux_spec (fuel : nat) (root : string) (h : host) (s : state) (o : option string) :
  find_workspace_root_aux fuel root h s = (inr o, s) ->
  match o with
  | Some r => ancestor root r /\ path_exists (fs s) (path_join r "WORKSPACE") = true
  | None => forall d, ancestor root d -> path_exists (fs s) (path_join d "WORKSPACE") = false
  end.
Proof.
  revert root; induction fuel as [|fuel IH]; intros root Hf; [discriminate|].
  rewrite find_aux_S in Hf.
  destruct (path_exists (fs s) (path_join root "WORKSPACE")) eqn:Ew.
  - injection Hf as <-. split; [apply anc_self | exact Ew].
  - destruct (String.eqb (dirname root) root) eqn:E; simpl in Hf.
    + injection Hf as <-. intros d Hd. apply String.eqb_eq in E.
      rewrite (ancestor_fixed root d E Hd). exact Ew.
    + specialize (IH _ Hf). destruct o as [r|].
      * destruct IH as [Ha Hr]. split; [now apply ancestor_step | exact Hr].
      * intros d Hd. destruct (ancestor_inv root d Hd) as [->|Hd'].
        -- exact Ew.
        -- now apply IH.
Qed.

(** The walk only reads, and the only exception it raises is
    RecursionError. *)
Lemma find_aux_result (fuel : nat) (root : string) (h : host) (s : state) :
  find_workspace_root_aux fuel root h s = (inl RecursionError, s) \/
  exists o, find_workspace_root_aux fuel root h s = (inr o, s).
Proof.
  revert root; induction fuel as [|fuel IH]; intros root; [left; reflexivity|].
  rewrite find_aux_S.
  destruct (path_exists (fs s) (path_join root "WORKSPACE")); [eauto|].
  destruct (negb (String.eqb (dirname root) root)); [apply IH | eauto].
Qed.

Lemma find_workspace_root_result (root : option string) (h : host) (s : state) :
  find_workspace_root root h s = (inl RecursionError, s) \/
  exists o, find_workspace_root root h s = (inr o, s).
Proof. apply find_aux_result. Qed.

(** [up k p]: the directory [k] steps of [dirname] above [p]. *)
Fixpoint up (k : nat) (p : string) : string :=
  match k with
  | O => p
  | S k' => up k' (dirname p)
  end.

(** The walk runs out of frames exactly when each of its first [fuel]
    directories has no WORKSPACE and a parent other than itself. *)
Lemma find_aux_recursion (fuel : nat) (root : string) (h : host) (s : state) :
  fst (find_workspace_root_aux fuel root h s) = inl RecursionError <->
  forall k, (k < fuel)%nat ->
    path_exists (fs s) (path_join (up k root) "WORKSPACE") = false /\
    dirname (up k root) <> up k root.
Proof.
  revert root; induction fuel as [|fuel IH]; intros root.
  - split; [intros _ k Hk; lia | reflexivity].
  - rewrite find_aux_S.
    destruct (path_exists (fs s) (path_join root "WORKSPACE")) eqn:Ew.
    + split; [discriminate|]. intros Hall. destruct (Hall O ltac:(lia)) as [Hw _].
      simpl in Hw. congruence.
    + destruct (String.eqb (dirname root) root) eqn:E; simpl.
      * split; [discriminate|]. intros Hall. destruct (Hall O ltac:(lia)) as [_ Hd].
        simpl in Hd. apply String.eqb_eq in E. contradiction.
      * rewrite IH. split.
        -- intros Hall [|k] Hk; simpl.
           ++ split; [exact Ew | now apply String.eqb_neq].
           ++ apply Hall. lia.
        -- intros Hall k Hk. exact (Hall (S k) ltac:(lia)).
Qed.

Lemma ancestor_up (k : nat) (p : string) : ancestor p (up k p).
Proof.
  revert p; induction k as [|k IH]; intros p; [apply anc_self|].
  simpl. apply ancestor_step, IH.
Qed.

Lemma find_workspace_root_eq (root : option string) (h : host) (s : state) :
  find_workspace_root root h s =
  find_workspace_root_aux (walk_frames h) (match root with Some r => r | None => cwd h end) h s.
Proof. reflexivity. Qed.

(** The outcome of [open(p, 'r').read()] on what [p] holds. *)
Definition read_result (o : option node) : exc + string :=
  match o with
  | Some (RegFile f) =>
      if f_readable f then
        match decode_text (f_data f) with
        | Some t => inr t
        | None => inl UnicodeDecodeError
        end
      else inl PermissionError
  | Some (Dir _ _ _) => inl IsADirectoryError
  | None => inl FileNotFoundError
  end.

Lemma read_file_eq (p : string) (h : host) (s : state) :
  read_file p h s = (read_result (fs s !! p), s).
Proof.
  unfold read_file, get_fs, bind, ret, raise. simpl.
  destruct (fs s !! p) as [[f|t md a]|]; simpl; try reflexivity.
  destruct (f_readable f); [|reflexivity].
  now destruct (decode_text (f_data f)).
Qed.

(** What [decide_which_bazel_version_to_use] does after the override
    check, given the workspace root [o] found by the walk: the stripped
    text of .bazelversion, "latest" when there is none, or the error of
    the read. *)
Definition pin_result (s : state) (o : option string) : exc + string :=
  match o with
  | Some root =>
      if String.eqb root EmptyString then inr "latest" else
      match read_result (fs s !! path_join root ".bazelversion") with
      | inr t => inr (strip t)
      | inl FileNotFoundError => inr "latest"
      | inl e => inl e
      end
  | None => inr "latest"
  end.

Lemma decide_override (h : host) (s : state) (v : string) :
  environ h !! "USE_BAZEL_VERSION" = Some v ->
  decide_which_bazel_version_to_use h s = (inr v, s).
Proof.
  intros Henv. unfold decide_which_bazel_version_to_use, ask, bind, ret.
  cbv beta iota. now rewrite Henv.
Qed.

Lemma decide_no_override (h : host) (s : state) (o : option string) :
  environ h !! "USE_BAZEL_VERSION" = None ->
  find_workspace_root None h s = (inr o, s) ->
  decide_which_bazel_version_to_use h s = (pin_result s o, s).
Proof.
  intros Henv Hfind.
  unfold decide_which_bazel_version_to_use, try_fnf, ask, bind, ret, raise.
  cbv beta iota. rewrite Henv, Hfind. unfold pin_result.
  destruct o as [root|]; [|reflexivity].
  destruct (String.eqb root EmptyString); [reflexivity|].
  rewrite read_file_eq.
  destruct (read_result (fs s !! path_join root ".bazelversion")) as [[]|t]; reflexivity.
Qed.

(** When the walk runs out of frames, the selector raises RecursionError. *)
Lemma decide_walk_error (h : host) (s : state) :
  environ h !! "USE_BAZEL_VERSION" = None ->
  find_workspace_root None h s = (inl RecursionError, s) ->
  decide_which_bazel_version_to_use h s = (inl RecursionError, s).
Proof.
  intros Henv Hfind.
  unfold decide_which_bazel_version_to_use, try_fnf, ask, bind, ret, raise.
  cbv beta iota. rewrite Henv, Hfind. reflexivity.
Qed.

Definition node_mtime (n : node) : Z :=
  match n with RegFile f => f_mtime f | Dir t _ _ => t end.

Lemma getmtime_eq (p : string) (h : host) (s : state) :
  getmtime p h s =
  (match fs s !! p with Some n => inr (node_mtime n) | None => inl FileNotFoundError end, s).
Proof.
  unfold getmtime, get_fs, bind, ret, raise. simpl.
  destruct (fs s !! p) as [[f|t md a]|]; reflexivity.
Qed.

(** Whether [open(p, 'w')] succeeds on the filesystem [m]. *)
Definition writable (m : gmap string node) (p : string) : bool :=
  match m !! p with
  | Some (RegFile f) => negb (on_rofs (f_acc f)) && may_write (f_acc f)
  | Some (Dir _ _ _) => false
  | None =>
      match m !! dirname p with
      | Some (Dir _ _ a) => negb (on_rofs a) && may_write a
      | _ => false
      end
  end.

(** The file [open(p, 'w').write(d)] leaves at [p]. *)
Definition written (m : gmap string node) (p d : string) (t : Z) : file :=
  match m !! p with
  | Some (RegFile f) => mkFile d t (f_readable f) (f_mode f) (f_acc f)
  | _ => mkFile d t true 420 own
  end.

Lemma write_file_ok (p d : string) (h : host) (s : state) :
  writable (fs s) p = true ->
  write_file p d h s =
  (inr tt, mkState (<[p := RegFile (written (fs s) p d (now h))]> (fs s)) (log s)).
Proof.
  unfold writable, written, write_file, ask, get_fs, put_fs, bind, ret, raise. simpl.
  destruct (fs s !! p) as [[f|t md a]|].
  - destruct (on_rofs (f_acc f)), (may_write (f_acc f)); easy.
  - discriminate.
  - destruct (fs s !! dirname p) as [[f|t md a]|]; try discriminate.
    destruct (on_rofs a), (may_write a); easy.
Qed.

Lemma write_file_fail (p d : string) (h : host) (s : state) :
  writable (fs s) p = false -> exists e, write_file p d h s = (inl e, s).
Proof.
  unfold writable, write_file, ask, get_fs, put_fs, bind, ret, raise. simpl.
  destruct (fs s !! p) as [[f|t md a]|]; [| |].
  - destruct (on_rofs (f_acc f)), (may_write (f_acc f)); simpl; try discriminate; eauto.
  - eauto.
  - destruct (fs s !! dirname p) as [[f|t md a]|]; eauto.
    destruct (on_rofs a), (may_write a); simpl; try discriminate; eauto.
Qed.

(** A failed write changes nothing. *)
Lemma write_file_inl (p d : string) (h : host) (s s' : state) (e : exc) :
  write_file p d h s = (inl e, s') -> s' = s.
Proof.
  destruct (writable (fs s) p) eqn:Hw.
  - rewrite (write_file_ok p d h s Hw). discriminate.
  - destruct (write_file_fail p d h s Hw) as [e' He]. rewrite He. congruence.
Qed.

Lemma resolve_latest_eq (h : host) (s : state) :
  resolve_latest_version h s =
  (match latest_redirect h with Some u => inr (last_segment u) | None => inl NetworkError end,
   mkState (fs s) (ENet latest_url :: log s)).
Proof.
  unfold resolve_latest_version, emit, ask, bind, ret, raise. simpl.
  now destruct (latest_redirect h).
Qed.

(** A cache file (or directory) younger than an hour either way answers
    "latest" without a request: its stripped text, or the error of the
    read. *)
Lemma resolve_fresh (bd : string) (h : host) (s : state) (n : node) :
  fs s !! path_join bd "latest_bazel" = Some n ->
  (Z.abs (now h - node_mtime n) < ONE_HOUR)%Z ->
  resolve_version_label_to_number bd "latest" h s =
  (match read_result (Some n) with inr t => inr (strip t) | inl e => inl e end, s).
Proof.
  intros Hn Ht. apply Z.ltb_lt in Ht.
  unfold resolve_version_label_to_number, try_fnf, getmtime, read_file, ask, get_fs,
    bind, ret, raise.
  cbv beta iota zeta. simpl. rewrite Hn.
  destruct n as [f|t md a]; simpl in Ht |- *; rewrite Ht; simpl; rewrite ?Hn; [|reflexivity].
  destruct (f_readable f); [|reflexivity].
  destruct (decode_text (f_data f)); reflexivity.
Qed.

Lemma resolve_hit (bd : string) (h : host) (s : state) (f : file) (t : string) :
  fs s !! path_join bd "latest_bazel" = Some (RegFile f) ->
  f_readable f = true -> decode_text (f_data f) = Some t ->
  (Z.abs (now h - f_mtime f) < ONE_HOUR)%Z ->
  resolve_version_label_to_number bd "latest" h s = (inr (strip t), s).
Proof.
  intros Hf Hr Hd Ht. rewrite (resolve_fresh bd h s (RegFile f) Hf Ht). simpl.
  now rewrite Hr, Hd.
Qed.

(** An absent or stale cache: the request, then the write of its result. *)
Lemma resolve_miss_eq (bd : string) (h : host) (s : state) :
  let c := path_join bd "latest_bazel" in
  fs s !! c = None \/ (exists n, fs s !! c = Some n /\ (ONE_HOUR <= Z.abs (now h - node_mtime n))%Z) ->
  resolve_version_label_to_number bd "latest" h s =
  (latest_version <- resolve_latest_version ;;
   write_file c latest_version ;;; ret latest_version) h s.
Proof.
  intros c Hcase.
  unfold resolve_version_label_to_number, try_fnf, getmtime, ask, get_fs, bind at 1 2 3 4, ret,
    raise.
  cbv beta iota zeta. simpl. fold c.
  destruct Hcase as [Hn | [n [Hn Ht]]]; rewrite Hn.
  - reflexivity.
  - assert (Hb : (Z.abs (now h - node_mtime n) <? ONE_HOUR)%Z = false) by (apply Z.ltb_ge; exact Ht).
    destruct n as [f|t md a]; simpl in Hb |- *; rewrite Hb; reflexivity.
Qed.

(** After a miss the program queries the network and (over)writes the
    cache file when it may; otherwise the write raises after the
    request. *)
Lemma resolve_miss (bd : string) (h : host) (s : state) (u : string) :
  let c := path_join bd "latest_bazel" in
  fs s !! c = None \/ (exists n, fs s !! c = Some n /\ (ONE_HOUR <= Z.abs (now h - node_mtime n))%Z) ->
  latest_redirect h = Some u ->
  (writable (fs s) c = true ->
     resolve_version_label_to_number bd "latest" h s =
     (inr (last_segment u),
      mkState (<[c := RegFile (written (fs s) c (last_segment u) (now h))]> (fs s))
              (ENet latest_url :: log s))) /\
  (writable (fs s) c = false ->
     exists e, resolve_version_label_to_number bd "latest" h s =
               (inl e, mkState (fs s) (ENet latest_url :: log s))).
Proof.
  intros c Hcase Hu. rewrite (resolve_miss_eq bd h s Hcase). fold c.
  assert (Hr : resolve_latest_version h s =
                (inr (last_segment u), mkState (fs s) (ENet latest_url :: log s)))
    by (now rewrite resolve_latest_eq, Hu).
  rewrite (bind_inr _ _ _ _ _ _ Hr).
  split.
  - intros Hw.
    rewrite (bind_inr _ _ _ _ _ _
               (write_file_ok c (last_segment u) h (mkState (fs s) (ENet latest_url :: log s)) Hw)).
    reflexivity.
  - intros Hw. destruct (write_file_fail c (last_segment u) h
                           (mkState (fs s) (ENet latest_url :: log s)) Hw) as [e He].
    exists e. exact (bind_inl _ _ _ _ _ _ He).
Qed.

Lemma resolve_miss_offline (bd : string) (h : host) (s : state) :
  let c := path_join bd "latest_bazel" in
  fs s !! c = None \/ (exists n, fs s !! c = Some n /\ (ONE_HOUR <= Z.abs (now h - node_mtime n))%Z) ->
  latest_redirect h = None ->
  resolve_version_label_to_number bd "latest" h s =
  (inl NetworkError, mkState (fs s) (ENet latest_url :: log s)).
Proof.
  intros c Hcase Hu. rewrite (resolve_miss_eq bd h s Hcase).
  apply bind_inl. rewrite resolve_latest_eq, Hu. reflexivity.
Qed.

(** The name of the artifact on a supported host. *)
Definition artifact_name (h : host) (v : string) : string :=
  "bazel-" ++ v ++ "-" ++ lower (system h) ++ "-" ++ "x86_64".

Lemma determine_supported (h : host) (s : state) (v : string) :
  machine h = "x86_64" -> supported_os (lower (system h)) = true ->
  determine_bazel_filename v h s = (inr (artifact_name h v), s).
Proof.
  intros Hm Hos. unfold determine_bazel_filename, ask, bind, ret, raise.
  cbv beta iota zeta. rewrite Hm, Hos. reflexivity.
Qed.

Lemma determine_unsupported (h : host) (s : state) (v : string) :
  machine h <> "x86_64" \/ supported_os (lower (system h)) = false ->
  exists msg, determine_bazel_filename v h s = (inl (UnsupportedPlatform msg), s).
Proof.
  intros H. unfold determine_bazel_filename, ask, bind, ret, raise.
  cbv beta iota zeta.
  destruct (String.eqb (machine h) "x86_64") eqn:Em; simpl; [|eauto].
  apply String.eqb_eq in Em.
  destruct H as [H|H]; [contradiction|]. rewrite H. simpl. eauto.
Qed.

Lemma download_supported (h : host) (s : state) (v d : string) :
  machine h = "x86_64" -> supported_os (lower (system h)) = true ->
  download_bazel_into_directory v d h s =
  (let dest := path_join d (artifact_name h v) in
   e <- exists_ dest ;;
   (if negb e then data <- fetch (release_url v (artifact_name h v)) ;; write_file dest data
    else ret tt) ;;;
   chmod dest 493 ;;;
   ret dest) h s.
Proof.
  intros Hm Hos. unfold download_bazel_into_directory at 1. unfold bind at 1.
  rewrite (determine_supported h s v Hm Hos). reflexivity.
Qed.

(** The read loop does not touch the filesystem or the log. *)
Lemma read_blocks_state (n : Z) (blocks : list string) (total : Z) (stream : list chunk)
    (h : host) (s : state) :
  snd (read_blocks n blocks total stream h s) = s.
Proof.
  revert blocks total; induction stream as [|[b|] rest IH]; intros blocks total; simpl.
  - unfold raise, ret. now destruct (Z.eqb n 0).
  - unfold raise, ret. destruct (Z.eqb n 0); [reflexivity|].
    destruct (Nat.eqb (String.length b) 0); [reflexivity|]. apply IH.
  - reflexivity.
Qed.

(** [urlopen] is one logged request; the download leaves the filesystem
    alone. *)
Lemma fetch_state (url : string) (h : host) (s : state) :
  snd (fetch url h s) = mkState (fs s) (ENet url :: log s).
Proof.
  unfold fetch, emit, ask, bind, raise. cbv beta iota zeta. simpl.
  destruct (serve h url) as [u|]; [|reflexivity].
  destruct (content_length u) as [n|]; [|reflexivity].
  apply read_blocks_state.
Qed.



(** Whether [os.chmod] may change the node. *)
Definition chmod_ok (n : node) : bool :=
  negb (on_rofs (node_acc n)) && may_chmod (node_acc n).

Lemma chmod_ok_own : chmod_ok (RegFile (mkFile "" 0 true 420 own)) = true.
Proof. reflexivity. Qed.

(** [os.chmod] on a node it may change sets the mode and keeps the
    rights. *)
Lemma chmod_spec (p : string) (mode : Z) (h : host) (s : state) (n : node) :
  fs s !! p = Some n -> chmod_ok n = true ->
  exists n', chmod p mode h s = (inr tt, mkState (<[p := n']> (fs s)) (log s))
             /\ node_mode n' = mode /\ node_acc n' = node_acc n.
Proof.
  intros Hn Hok. unfold chmod_ok in Hok. unfold chmod, get_fs, put_fs, bind. cbv beta iota.
  rewrite Hn. destruct (on_rofs (node_acc n)), (may_chmod (node_acc n)); try discriminate.
  simpl. destruct n as [f|t md a]; eexists; (split; [reflexivity | split; reflexivity]).
Qed.

(** Otherwise it raises, EROFS before EPERM, and changes nothing. *)
Lemma chmod_fail (p : string) (mode : Z) (h : host) (s : state) (n : node) :
  fs s !! p = Some n -> chmod_ok n = false ->
  chmod p mode h s =
  (inl (if on_rofs (node_acc n) then ReadOnlyFileSystem else PermissionError), s).
Proof.
  intros Hn Hok. unfold chmod_ok in Hok. unfold chmod, get_fs, put_fs, bind, raise. cbv beta iota.
  rewrite Hn. destruct (on_rofs (node_acc n)), (may_chmod (node_acc n)); try discriminate; reflexivity.
Qed.

Section Download.
Variables (h : host) (v d : string).
Hypothesis Hm : machine h = "x86_64".
Hypothesis Hos : supported_os (lower (system h)) = true.

Let dest := path_join d (artifact_name h v).
Let url := release_url v (artifact_name h v).

Lemma download_present_eq (s : state) :
  path_exists (fs s) dest = true ->
  download_bazel_into_directory v d h s = (chmod dest 493 ;;; ret dest) h s.
Proof.
  intros He. rewrite (download_supported h s v d Hm Hos). cbv zeta. fold dest url.
  rewrite (bind_inr _ _ _ _ _ _ (exists_eq dest h s)), He. simpl negb. cbv iota.
  rewrite (bind_inr _ _ _ _ _ _ (ret_eq tt h s)). reflexivity.
Qed.

(** The destination exists and may be changed: no request, only
    [chmod]. *)
Lemma download_present (s : state) (n : node) :
  fs s !! dest = Some n -> chmod_ok n = true ->
  exists m', download_bazel_into_directory v d h s = (inr dest, mkState m' (log s))
             /\ exists n', m' !! dest = Some n' /\ node_mode n' = 493%Z /\ chmod_ok n' = true.
Proof.
  intros Hn Hok.
  assert (He : path_exists (fs s) dest = true) by (apply path_exists_true; eauto).
  rewrite (download_present_eq s He).
  destruct (chmod_spec dest 493 h s n Hn Hok) as [n' [Hc [Hmode Hacc]]].
  rewrite (bind_inr _ _ _ _ _ _ Hc).
  exists (<[dest := n']> (fs s)). split; [reflexivity|].
  exists n'. split; [apply lookup_insert_eq|]. split; [exact Hmode|].
  unfold chmod_ok in *. now rewrite Hacc.
Qed.

(** The destination exists but may not be changed: [os.chmod] raises,
    with no request and no change. *)
Lemma download_present_fail (s : state) (n : node) :
  fs s !! dest = Some n -> chmod_ok n = false ->
  download_bazel_into_directory v d h s =
  (inl (if on_rofs (node_acc n) then ReadOnlyFileSystem else PermissionError), s).
Proof.
  intros Hn Hok.
  assert (He : path_exists (fs s) dest = true) by (apply path_exists_true; eauto).
  rewrite (download_present_eq s He).
  exact (bind_inl _ _ _ _ _ _ (chmod_fail dest 493 h s n Hn Hok)).
Qed.

(** Either way an existing destination means no request. *)
Lemma download_present_any (s : state) :
  path_exists (fs s) dest = true ->
  let '(r, s') := download_bazel_into_directory v d h s in
  log s' = log s /\
  match r with
  | inl _ => s' = s
  | inr p => p = dest /\ exists n, fs s' !! dest = Some n /\ node_mode n = 493%Z /\ chmod_ok n = true
  end.
Proof.
  intros He. apply path_exists_true in He as [n Hn].
  destruct (chmod_ok n) eqn:Hok.
  - destruct (download_present s n Hn Hok) as [m' [Hd Hn']]. rewrite Hd. simpl.
    split; [reflexivity|]. split; [reflexivity | exact Hn'].
  - rewrite (download_present_fail s n Hn Hok). split; reflexivity.
Qed.

(** The destination is missing: exactly one request; on failure the
    filesystem is as before, on success the file is there with mode
    0o755. *)
Lemma download_absent (s : state) :
  path_exists (fs s) dest = false ->
  let '(r, s') := download_bazel_into_directory v d h s in
  log s' = ENet url :: log s /\
  match r with
  | inl _ => fs s' = fs s
  | inr p => p = dest /\ exists n, fs s' !! dest = Some n /\ node_mode n = 493%Z /\ chmod_ok n = true
  end.
Proof.
  intros He. rewrite (download_supported h s v d Hm Hos). cbv zeta. fold dest url.
  rewrite (bind_inr _ _ _ _ _ _ (exists_eq dest h s)), He. simpl negb. cbv iota.
  pose proof (fetch_state url h s) as Hf.
  destruct (fetch url h s) as [[e|data] s1] eqn:Ef; simpl in Hf; subst s1.
  - rewrite (bind_inl _ _ _ _ _ _ (bind_inl _ _ _ _ _ _ Ef)). split; reflexivity.
  - rewrite (bind_bind_inr _ _ _ _ _ _ _ Ef).
    apply path_exists_false in He.
    set (s1 := mkState (fs s) (ENet url :: log s)).
    destruct (writable (fs s) dest) eqn:Hw.
    + rewrite (bind_inr _ _ _ _ _ _ (write_file_ok dest data h s1 Hw)).
      unfold written, s1. cbn [fs log]. rewrite He.
      destruct (chmod_spec dest 493 h
                  (mkState (<[dest := RegFile (mkFile data (now h) true 420 own)]> (fs s))
                           (ENet url :: log s))
                  (RegFile (mkFile data (now h) true 420 own)) (lookup_insert_eq _ _ _) eq_refl)
        as [n' [Hc [Hmode Hacc]]].
      rewrite (bind_inr _ _ _ _ _ _ Hc). simpl.
      split; [reflexivity|]. split; [reflexivity|].
      exists n'. split; [apply lookup_insert_eq|]. split; [exact Hmode|].
      unfold chmod_ok. now rewrite Hacc.
    + destruct (write_file_fail dest data h s1 Hw) as [e Hwe].
      rewrite (bind_inl _ _ _ _ _ _ Hwe). split; reflexivity.
Qed.

End Download.


(** [os.mkdir] either raises and changes nothing, or adds the one
    directory. *)
Lemma mkdir_cases (p : string) (h : host) (s : state) :
  (exists e, mkdir p h s = (inl e, s)) \/
  (fs s !! p = None /\
   mkdir p h s = (inr tt, mkState (<[p := Dir (now h) 493 own]> (fs s)) (log s))).
Proof.
  unfold mkdir, ask, get_fs, put_fs, bind, raise. simpl.
  destruct (fs s !! p); [eauto|].
  destruct (fs s !! dirname p) as [[f|t md a]|]; eauto.
  destruct (on_rofs a), (may_write a); simpl; eauto.
Qed.

(** Directory creation does not touch the network. *)
Lemma mkdir_log (p : string) (h : host) (s : state) : log (snd (mkdir p h s)) = log s.
Proof.
  destruct (mkdir_cases p h s) as [[e ->] | [_ ->]]; reflexivity.
Qed.

Lemma makedirs_aux_log (fuel : nat) (p : string) (h : host) (s : state) :
  log (snd (makedirs_aux fuel p h s)) = log s.
Proof.
  revert p s; induction fuel as [|fuel IH]; intros p s; [reflexivity|].
  cbn [makedirs_aux]. rewrite (bind_inr _ _ _ _ _ _ (get_fs_eq h s)).
  destruct (fs s !! p) as [[f|t md a]|]; [reflexivity|reflexivity|].
  destruct (negb (String.eqb (dirname p) EmptyString) && negb (String.eqb (dirname p) p)
            && negb (path_exists (fs s) (dirname p))).
  - destruct (makedirs_aux fuel (dirname p) h s) as [[e|[]] s1] eqn:E.
    + rewrite (bind_inl _ _ _ _ _ _ E). simpl.
      specialize (IH (dirname p) s). rewrite E in IH. exact IH.
    + rewrite (bind_inr _ _ _ _ _ _ E). rewrite mkdir_log.
      specialize (IH (dirname p) s). rewrite E in IH. exact IH.
  - rewrite (bind_inr _ _ _ _ _ _ (ret_eq tt h s)). apply mkdir_log.
Qed.

Lemma makedirs_log (p : string) (h : host) (s : state) :
  log (snd (makedirs p h s)) = log s.
Proof. apply makedirs_aux_log. Qed.

(** The selector only reads. *)
Lemma decide_state (h : host) (s : state) :
  snd (decide_which_bazel_version_to_use h s) = s.
Proof.
  destruct (environ h !! "USE_BAZEL_VERSION") as [v|] eqn:Henv.
  - now rewrite (decide_override h s v Henv).
  - destruct (find_workspace_root_result None h s) as [Hf | [o Ho]].
    + now rewrite (decide_walk_error h s Henv Hf).
    + now rewrite (decide_no_override h s o Henv Ho).
Qed.

Lemma write_file_log (p d : string) (h : host) (s : state) :
  log (snd (write_file p d h s)) = log s.
Proof.
  destruct (writable (fs s) p) eqn:Hw.
  - now rewrite (write_file_ok p d h s Hw).
  - destruct (write_file_fail p d h s Hw) as [e ->]. reflexivity.
Qed.

(** The resolver makes at most the one "latest" request. *)
Lemma resolve_log (bd v : string) (h : host) (s : state) :
  let s' := snd (resolve_version_label_to_number bd v h s) in
  log s' = log s \/ log s' = ENet latest_url :: log s.
Proof.
  cbv zeta. destruct (String.eqb v "latest") eqn:Ev.
  2:{ left. unfold resolve_version_label_to_number. now rewrite Ev. }
  apply String.eqb_eq in Ev. subst v.
  set (c := path_join bd "latest_bazel").
  assert (Hmiss : fs s !! c = None \/
                  (exists n, fs s !! c = Some n /\ (ONE_HOUR <= Z.abs (now h - node_mtime n))%Z) ->
                  log (snd (resolve_version_label_to_number bd "latest" h s))
                  = ENet latest_url :: log s).
  { intros Hcase. rewrite (resolve_miss_eq bd h s Hcase).
    unfold bind at 1. rewrite resolve_latest_eq. destruct (latest_redirect h) as [u|]; [|reflexivity].
    pose proof (write_file_log c (last_segment u) h
                  (mkState (fs s) (ENet latest_url :: log s))) as Hl.
    unfold bind. simpl in Hl |- *. fold c.
    destruct (write_file c (last_segment u) h (mkState (fs s) (ENet latest_url :: log s)))
      as [[e|[]] s1]; exact Hl. }
  destruct (fs s !! c) as [n|] eqn:Hc.
  - destruct (Z_lt_le_dec (Z.abs (now h - node_mtime n)) ONE_HOUR) as [Ht|Ht].
    + left. now rewrite (resolve_fresh bd h s n Hc Ht).
    + right. apply Hmiss. eauto.
  - right. apply Hmiss. auto.
Qed.

Lemma download_unsupported (h : host) (s : state) (v d : string) :
  machine h <> "x86_64" \/ supported_os (lower (system h)) = false ->
  exists msg, download_bazel_into_directory v d h s = (inl (UnsupportedPlatform msg), s).
Proof.
  intros Hu. destruct (determine_unsupported h s v Hu) as [msg Hd].
  exists msg. unfold download_bazel_into_directory. apply (bind_inl _ _ _ _ _ _ Hd).
Qed.

(** On an unsupported host [main] always ends in an exception, and the
    only request it may have made is the "latest" query. *)
Lemma main_unsupported (h : host) (s : state) (argv : list string) :
  machine h <> "x86_64" \/ supported_os (lower (system h)) = false ->
  exists e s', main argv h s = (inl e, s') /\
               (log s' = log s \/ log s' = ENet latest_url :: log s).
Proof.
  intros Hu. unfold main. rewrite (bind_inr _ _ _ _ _ _ (ask_eq h s)). cbv beta zeta.
  set (bd := path_join (home h) ".bazelisk").
  pose proof (makedirs_log bd h s) as L1.
  destruct (makedirs bd h s) as [[e|[]] s1] eqn:E1; simpl in L1.
  { rewrite (bind_inl _ _ _ _ _ _ E1). eauto. }
  rewrite (bind_inr _ _ _ _ _ _ E1). cbv beta.
  pose proof (decide_state h s1) as L2.
  destruct (decide_which_bazel_version_to_use h s1) as [[e|v] s2] eqn:E2; simpl in L2; subst s2.
  { rewrite (bind_inl _ _ _ _ _ _ E2). eauto. }
  rewrite (bind_inr _ _ _ _ _ _ E2).
  pose proof (resolve_log bd v h s1) as L3. cbv zeta in L3.
  destruct (resolve_version_label_to_number bd v h s1) as [[e|v'] s3] eqn:E3; simpl in L3;
    rewrite L1 in L3.
  { rewrite (bind_inl _ _ _ _ _ _ E3). eauto. }
  rewrite (bind_inr _ _ _ _ _ _ E3). cbv zeta.
  set (bin := path_join bd "bin").
  pose proof (makedirs_log bin h s3) as L4.
  destruct (makedirs bin h s3) as [[e|[]] s4] eqn:E4; simpl in L4; rewrite <- L4 in L3.
  { rewrite (bind_inl _ _ _ _ _ _ E4). eauto. }
  rewrite (bind_inr _ _ _ _ _ _ E4). cbv beta.
  destruct (download_unsupported h s4 v' bin Hu) as [msg Hd].
  rewrite (bind_inl _ _ _ _ _ _ Hd). eauto.
Qed.

End ProgramFacts.

(** ** Concrete hosts and filesystems *)
Module Fixtures.
Import PyStr Py Bazelisk.

Definition rf (data : string) (mtime : Z) (readable : bool) : node :=
  RegFile (mkFile data mtime readable 420 own).

(** The rights on a file of another user that the process may read: it
    may neither write nor [chmod] it. *)
Definition foreign : access := mkAccess false false false.

(** A Linux x86_64 host at time 10000, in /home/u/proj; "latest" redirects
    to the 7.0.0 tag and every download answers three bytes. *)
Definition host_with (env : gmap string string) (mach sys : string)
    (srv : string -> option response) : host :=
  mkHost env "/home/u/proj" "/home/u" mach sys 10000%Z
    (Some "https://github.com/bazelbuild/bazel/releases/tag/7.0.0")
    srv (fun _ _ => 0%Z) 995.

(** The same host with another current directory or another answer to the
    "latest" query. *)
Definition with_cwd (h : host) (d : string) : host :=
  mkHost (environ h) d (home h) (machine h) (system h) (now h) (latest_redirect h)
    (serve h) (spawn_exit h) (walk_frames h).

Definition with_redirect (h : host) (u : string) : host :=
  mkHost (environ h) (cwd h) (home h) (machine h) (system h) (now h) (Some u)
    (serve h) (spawn_exit h) (walk_frames h).

Definition serve_ok : string -> option response :=
  fun _ => Some (mkResponse (Some 3%Z) [Chunk "abc"]).

(** The connection breaks after the first block. *)
Definition serve_broken : string -> option response :=
  fun _ => Some (mkResponse (Some 2048%Z) [Chunk "ab"; ChunkFail]).

Definition linux : host := host_with ∅ "x86_64" "Linux" serve_ok.
Definition arm64 : host := host_with ∅ "arm64" "Linux" serve_ok.

Definition tree : gmap string node :=
  <["/" := Dir 0 493 own]> (<["/home" := Dir 0 493 own]> (<["/home/u" := Dir 0 493 own]>
  (<["/home/u/proj" := Dir 0 493 own]> ∅))).

Definition with_workspace : gmap string node :=
  <["/home/u/proj/WORKSPACE" := rf "" 0 true]> tree.

Definition st (m : gmap string node) : state := mkState m [].

Definition bazelisk_dir : string := "/home/u/.bazelisk".
Definition bin_dir : string := "/home/u/.bazelisk/bin".

(** [tree] with the cache directories of a previous run. *)
Definition cache_tree : gmap string node :=
  <[bin_dir := Dir 0 493 own]> (<[bazelisk_dir := Dir 0 493 own]> tree).

(** "/a/a/.../a", [k] levels below the root. *)
Fixpoint deep (k : nat) : string :=
  match k with
  | O => EmptyString
  | S k' => deep k' ++ "/a"
  end.

(** [tree] with the directories /a, /a/a, ..., [deep k]. *)
Fixpoint deep_tree (k : nat) : gmap string node :=
  match k with
  | O => tree
  | S k' => <[deep k := Dir 0 493 own]> (deep_tree k')
  end.

(** Whether a path holds the letter W. *)
Fixpoint has_W (s : string) : bool :=
  match s with
  | EmptyString => false
  | String a s' => Ascii.eqb a "W"%char || has_W s'
  end.

Import PyStrFacts ProgramFacts.

Lemma deep_S (k : nat) : deep (S k) = deep k ++ "/a".
Proof. reflexivity. Qed.

Lemma deep_tree_S (k : nat) : deep_tree (S k) = <[deep (S k) := Dir 0 493 own]> (deep_tree k).
Proof. reflexivity. Qed.

Lemma deep_length (k : nat) : String.length (deep k) = (2 * k)%nat.
Proof.
  induction k as [|k IH]; [reflexivity|].
  rewrite deep_S, length_append, IH. simpl. lia.
Qed.

Lemma dirname_deep (k : nat) : dirname (deep (S (S k))) = deep (S k).
Proof.
  rewrite (deep_S (S k)). apply dirname_snoc.
  - rewrite deep_S, all_slashes_app. apply andb_false_r.
  - rewrite deep_S, rstrip_slash_app. reflexivity.
Qed.

Lemma up_deep (j m : nat) : up j (deep (j + S m)) = deep (S m).
Proof.
  induction j as [|j IH]; [reflexivity|].
  replace (S j + S m)%nat with (S (S (j + m))) by lia.
  cbn [up]. rewrite dirname_deep. replace (S (j + m)) with (j + S m)%nat by lia. exact IH.
Qed.

Lemma ancestor_deep (n : nat) (d : string) :
  ancestor (deep n) d -> d = "/" \/ exists j, d = deep j.
Proof.
  induction 1 as [|q _ IH]; [right; eauto|].
  destruct IH as [-> | [j ->]]; [left; reflexivity|].
  destruct j as [|[|j]].
  - right. exists O. reflexivity.
  - left. reflexivity.
  - right. exists (S j). apply dirname_deep.
Qed.

Lemma has_W_app (x y : string) : has_W (x ++ y) = has_W x || has_W y.
Proof.
  induction x as [|c x IH]; [reflexivity|].
  rewrite append_cons. simpl. rewrite IH. apply orb_assoc.
Qed.

Lemma has_W_deep (k : nat) : has_W (deep k) = false.
Proof. induction k as [|k IH]; [reflexivity|]. rewrite deep_S, has_W_app, IH. reflexivity. Qed.

Lemma has_W_join (d : string) : has_W (path_join d "WORKSPACE") = true.
Proof.
  unfold path_join. change (starts_with_slash "WORKSPACE") with false. cbv iota.
  destruct (String.eqb d EmptyString || ends_with_slash d); rewrite !has_W_app; simpl;
    apply orb_true_r.
Qed.

Lemma deep_tree_W (n : nat) (q : string) : has_W q = true -> deep_tree n !! q = None.
Proof.
  intros Hq. induction n as [|n IH].
  - change (deep_tree 0) with tree. unfold tree.
    repeat (rewrite lookup_insert_ne; [|intros <-; simpl in Hq; discriminate]).
    reflexivity.
  - rewrite deep_tree_S, lookup_insert_ne; [exact IH|].
    intros E. rewrite <- E, has_W_deep in Hq. discriminate.
Qed.

End Fixtures.

(** ** The claims *)
Module Claims.
Import PyStr Py Bazelisk PyStrFacts ProgramFacts Fixtures.

(** C1 (corrected): the selector returns USE_BAZEL_VERSION when it is set.
    Otherwise the walk either raises RecursionError, which happens exactly
    when each of the first [walk_frames] directories up from the current
    one has no WORKSPACE and a parent other than itself, and the selector
    raises it too; or it finds the workspace root (an ancestor of the
    current directory where WORKSPACE exists) or none.  With a root whose
    .bazelversion is readable UTF-8 text the selector returns that text,
    newlines translated, stripped; with no root or no .bazelversion it
    returns "latest"; a .bazelversion that exists but cannot be read or
    decoded raises its error ([pin_result]). *)
Theorem selector_precedence (h : host) (s : state) :
  (find_workspace_root None h s = (inl RecursionError, s) \/
   exists o, find_workspace_root None h s = (inr o, s) /\
   match o with
   | Some r => ancestor (cwd h) r /\ path_exists (fs s) (path_join r "WORKSPACE") = true
   | None => forall d, ancestor (cwd h) d -> path_exists (fs s) (path_join d "WORKSPACE") = false
   end) /\
  (fst (find_workspace_root None h s) = inl RecursionError <->
   forall k, (k < walk_frames h)%nat ->
     path_exists (fs s) (path_join (up k (cwd h)) "WORKSPACE") = false /\
     dirname (up k (cwd h)) <> up k (cwd h)) /\
  decide_which_bazel_version_to_use h s =
    (match environ h !! "USE_BAZEL_VERSION" with
     | Some v => inr v
     | None =>
         match fst (find_workspace_root None h s) with
         | inl e => inl e
         | inr o => pin_result s o
         end
     end, s).
Proof.
  split; [|split].
  - destruct (find_workspace_root_result None h s) as [Hf | [o Ho]]; [now left|].
    right. exists o. split; [exact Ho|].
    rewrite find_workspace_root_eq in Ho. exact (find_aux_spec _ _ _ _ _ Ho).
  - rewrite find_workspace_root_eq. apply find_aux_recursion.
  - destruct (environ h !! "USE_BAZEL_VERSION") as [v|] eqn:Henv.
    + now apply decide_override.
    + destruct (find_workspace_root_result None h s) as [Hf | [o Ho]].
      * rewrite Hf. now apply decide_walk_error.
      * rewrite Ho. now apply decide_no_override.
Qed.

(** C1 counterexample: no override, a workspace root with a .bazelversion
    that the process may not read: the selector raises PermissionError
    instead of returning "latest". *)
Lemma selector_unreadable_pin_raises :
  let s := st (<["/home/u/proj/.bazelversion" := rf "6.4.0" 0 false]> with_workspace) in
  fst (decide_which_bazel_version_to_use linux s) = inl PermissionError /\
  fst (decide_which_bazel_version_to_use linux s) <> inr "latest".
Proof. vm_compute. split; [reflexivity | discriminate]. Qed.

Definition latest_cache : string := "/home/u/.bazelisk/latest_bazel".

(** C2 counterexample: a cache file written 1800 s ago that the process
    may not read makes the resolver raise PermissionError rather than
    return its contents; a stale cache file of another user makes it
    raise PermissionError after the request rather than return the
    result. *)
Lemma cache_unreadable_or_unwritable_raises :
  let s := st (<[latest_cache := rf "6.5.0" 8200 false]> cache_tree) in
  let s' := st (<[latest_cache := RegFile (mkFile "6.5.0" 6300 true 420 foreign)]> cache_tree) in
  resolve_version_label_to_number bazelisk_dir "latest" linux s = (inl PermissionError, s) /\
  resolve_version_label_to_number bazelisk_dir "latest" linux s'
    = (inl PermissionError, mkState (fs s') [ENet latest_url]).
Proof. vm_compute. split; reflexivity. Qed.

(** C2 (corrected): for "latest", a cache file (or directory) latest_bazel
    whose mtime is less than 3600 s away from now (either way) is read with
    no request and no change: its stripped text is returned, or the read
    error raised.  An absent or stale cache triggers the request; its
    result is written to the cache file (mtime now) and returned when the
    process may write the file, and the write raises otherwise; a failed
    request raises NetworkError. *)
Theorem latest_cache_ttl (bd : string) (h : host) (s : state) :
  let c := path_join bd "latest_bazel" in
  (forall n, fs s !! c = Some n -> (Z.abs (now h - node_mtime n) < 3600)%Z ->
     resolve_version_label_to_number bd "latest" h s =
     (match read_result (Some n) with inr t => inr (strip t) | inl e => inl e end, s)) /\
  (forall u,
     fs s !! c = None \/ (exists n, fs s !! c = Some n /\ (3600 <= Z.abs (now h - node_mtime n))%Z) ->
     latest_redirect h = Some u ->
     (writable (fs s) c = true ->
        resolve_version_label_to_number bd "latest" h s =
        (inr (last_segment u),
         mkState (<[c := RegFile (written (fs s) c (last_segment u) (now h))]> (fs s))
                 (ENet latest_url :: log s))) /\
     (writable (fs s) c = false ->
        exists e, resolve_version_label_to_number bd "latest" h s =
                  (inl e, mkState (fs s) (ENet latest_url :: log s)))) /\
  (fs s !! c = None \/ (exists n, fs s !! c = Some n /\ (3600 <= Z.abs (now h - node_mtime n))%Z) ->
     latest_redirect h = None ->
     resolve_version_label_to_number bd "latest" h s =
     (inl NetworkError, mkState (fs s) (ENet latest_url :: log s))).
Proof.
  intros c. split; [|split].
  - intros n Hn Ht. exact (resolve_fresh bd h s n Hn Ht).
  - intros u Hcase Hu. exact (resolve_miss bd h s u Hcase Hu).
  - intros Hcase Hu. exact (resolve_miss_offline bd h s Hcase Hu).
Qed.

Lemma latest_cache_ttl_witness :
  let s_hit := st (<[latest_cache := rf " 6.5.0 " 8200 true]> cache_tree) in
  let s_stale := st (<[latest_cache := rf "6.5.0" 6300 true]> cache_tree) in
  resolve_version_label_to_number bazelisk_dir "latest" linux s_hit = (inr "6.5.0", s_hit) /\
  resolve_version_label_to_number bazelisk_dir "latest" linux s_stale =
    (inr "7.0.0", mkState (<[latest_cache := rf "7.0.0" 10000 true]> (fs s_stale)) [ENet latest_url]) /\
  resolve_version_label_to_number bazelisk_dir "latest"
    (mkHost ∅ "/home/u/proj" "/home/u" "x86_64" "Linux" 10000%Z None serve_ok (fun _ _ => 0%Z) 995)
    s_stale = (inl NetworkError, mkState (fs s_stale) [ENet latest_url]).
Proof.
  intros s_hit s_stale.
  destruct (latest_cache_ttl bazelisk_dir linux s_hit) as [A _].
  destruct (latest_cache_ttl bazelisk_dir linux s_stale) as [_ [B _]].
  destruct (latest_cache_ttl bazelisk_dir
              (mkHost ∅ "/home/u/proj" "/home/u" "x86_64" "Linux" 10000%Z None serve_ok
                 (fun _ _ => 0%Z) 995) s_stale) as [_ [_ C]].
  assert (Hstale : fs s_stale !! latest_cache = None \/
                   (exists n, fs s_stale !! latest_cache = Some n /\
                              (3600 <= Z.abs (10000 - node_mtime n))%Z))
    by (right; exists (rf "6.5.0" 6300 true); split; vm_compute; [reflexivity | discriminate]).
  split; [|split].
  - rewrite (A (rf " 6.5.0 " 8200 true)); vm_compute; reflexivity.
  - destruct (B "https://github.com/bazelbuild/bazel/releases/tag/7.0.0" Hstale eq_refl) as [B1 _].
    rewrite B1; vm_compute; reflexivity.
  - exact (C Hstale eq_refl).
Defined.

(** C3 counterexample: on an arm64 host [main] raises the platform error
    only after creating ~/.bazelisk and querying the network for
    "latest". *)
Lemma main_arm64_touches_fs_and_network :
  let '(r, s') := main ["bazelisk"; "build"] arm64 (st tree) in
  (exists msg, r = inl (UnsupportedPlatform msg)) /\
  fs (st tree) !! bazelisk_dir = None /\ fs s' !! bazelisk_dir <> None /\
  log s' = [ENet latest_url].
Proof. vm_compute. split; [eexists; reflexivity|]. split; [reflexivity|]. split; [discriminate|reflexivity]. Qed.

(** C3 (corrected): on a host whose architecture is not x86_64 or whose
    OS is not linux/darwin/windows, the download step raises the platform
    error with the state untouched (no directory, no request), and [main]
    always ends in an exception without fetching or running a binary: the
    only request it may have made is the "latest" query. *)
Theorem unsupported_platform_rejected (h : host) (s : state) (v d : string) (argv : list string) :
  machine h <> "x86_64" \/ supported_os (lower (system h)) = false ->
  (exists msg, download_bazel_into_directory v d h s = (inl (UnsupportedPlatform msg), s)) /\
  (exists e s', main argv h s = (inl e, s') /\
                (log s' = log s \/ log s' = ENet latest_url :: log s)).
Proof.
  intros Hu. split.
  - now apply download_unsupported.
  - now apply main_unsupported.
Qed.

Lemma unsupported_platform_rejected_witness :
  (exists msg, download_bazel_into_directory "7.0.0" bin_dir arm64 (st cache_tree)
               = (inl (UnsupportedPlatform msg), st cache_tree)) /\
  (exists e s', main ["bazelisk"] arm64 (st tree) = (inl e, s') /\
                (log s' = [] \/ log s' = [ENet latest_url])).
Proof.
  destruct (unsupported_platform_rejected arm64 (st cache_tree) "7.0.0" bin_dir ["bazelisk"]) as [A _].
  { left. discriminate. }
  destruct (unsupported_platform_rejected arm64 (st tree) "7.0.0" bin_dir ["bazelisk"]) as [_ B].
  { left. discriminate. }
  split; [exact A | exact B].
Defined.

(** Whether a download succeeded or failed, the host is supported when it
    returned a path. *)
Lemma download_inr_supported (h : host) (s s' : state) (v d p : string) :
  download_bazel_into_directory v d h s = (inr p, s') ->
  machine h = "x86_64" /\ supported_os (lower (system h)) = true.
Proof.
  intros Hd.
  destruct (String.eqb (machine h) "x86_64") eqn:Em;
    [destruct (supported_os (lower (system h))) eqn:Eo|].
  - split; [now apply String.eqb_eq | reflexivity].
  - destruct (download_unsupported h s v d (or_intror Eo)) as [msg Hu]. congruence.
  - assert (Hne : machine h <> "x86_64") by (now apply String.eqb_neq).
    destruct (download_unsupported h s v d (or_introl Hne)) as [msg Hu]. congruence.
Qed.

(** A call that returns a path leaves at that path a node with mode
    0o755 that the process may change. *)
Lemma download_inr_node (h : host) (v d p : string) (s s' : state) :
  download_bazel_into_directory v d h s = (inr p, s') ->
  p = path_join d (artifact_name h v) /\
  exists n, fs s' !! p = Some n /\ node_mode n = 493%Z /\ chmod_ok n = true.
Proof.
  intros Hd. destruct (download_inr_supported h s s' v d p Hd) as [Hm Hos].
  destruct (path_exists (fs s) (path_join d (artifact_name h v))) eqn:He.
  - pose proof (download_present_any h v d Hm Hos s He) as Ha. rewrite Hd in Ha.
    destruct Ha as [_ [-> Hn]]. split; [reflexivity | exact Hn].
  - pose proof (download_absent h v d Hm Hos s He) as Ha. rewrite Hd in Ha.
    destruct Ha as [_ [-> Hn]]. split; [reflexivity | exact Hn].
Qed.




(** C5: on a supported host the filename is
    "bazel-<version>-<os>-<arch>", the one request made for a missing
    artifact is to "https://releases.bazel.build" + "/<version>/release/<filename>",
    and the returned path is the directory joined with the filename. *)
Theorem artifact_naming (h : host) (s : state) (v d : string) :
  machine h = "x86_64" -> supported_os (lower (system h)) = true ->
  let fn := "bazel-" ++ v ++ "-" ++ lower (system h) ++ "-" ++ machine h in
  determine_bazel_filename v h s = (inr fn, s) /\
  (path_exists (fs s) (path_join d fn) = false ->
     log (snd (download_bazel_into_directory v d h s))
     = ENet ("https://releases.bazel.build" ++ "/" ++ v ++ "/release/" ++ fn) :: log s) /\
  (forall p s', download_bazel_into_directory v d h s = (inr p, s') -> p = path_join d fn).
Proof.
  intros Hm Hos fn.
  assert (Hfn : fn = artifact_name h v) by (unfold fn, artifact_name; now rewrite Hm).
  rewrite Hfn. split; [now apply determine_supported|]. split.
  - intros He. pose proof (download_absent h v d Hm Hos s He) as Ha.
    destruct (download_bazel_into_directory v d h s) as [r s']. apply Ha.
  - intros p s' Hd. exact (proj1 (download_inr_node h v d p s s' Hd)).
Qed.

Lemma artifact_naming_witness :
  determine_bazel_filename "7.0.0" linux (st tree) = (inr "bazel-7.0.0-linux-x86_64", st tree) /\
  determine_bazel_filename "6.4.0" (host_with ∅ "x86_64" "Darwin" serve_ok) (st tree)
    = (inr "bazel-6.4.0-darwin-x86_64", st tree) /\
  log (snd (download_bazel_into_directory "7.0.0" bin_dir linux (st cache_tree)))
    = [ENet "https://releases.bazel.build/7.0.0/release/bazel-7.0.0-linux-x86_64"].
Proof.
  destruct (artifact_naming linux (st cache_tree) "7.0.0" bin_dir eq_refl eq_refl) as [_ [B _]].
  split; [apply (artifact_naming linux (st tree) "7.0.0" bin_dir eq_refl eq_refl)|].
  split; [apply (artifact_naming (host_with ∅ "x86_64" "Darwin" serve_ok) (st tree) "6.4.0" bin_dir eq_refl eq_refl)|].
  rewrite B; [reflexivity | vm_compute; reflexivity].
Defined.

(** C6: on a supported host, when the destination is missing and the
    download raises (broken stream, failed request, missing length, ...),
    the filesystem is as before, the destination is still missing, and the
    next call requests the artifact again. *)
Theorem download_failure_leaves_no_file (h : host) (v d : string) (s s' : state) (e : exc) :
  machine h = "x86_64" -> supported_os (lower (system h)) = true ->
  let dest := path_join d (artifact_name h v) in
  path_exists (fs s) dest = false ->
  download_bazel_into_directory v d h s = (inl e, s') ->
  fs s' = fs s /\ fs s' !! dest = None /\
  log (snd (download_bazel_into_directory v d h s'))
    = ENet (release_url v (artifact_name h v)) :: log s'.
Proof.
  intros Hm Hos dest He Hd.
  pose proof (download_absent h v d Hm Hos s He) as Ha. rewrite Hd in Ha.
  destruct Ha as [_ Hfs].
  assert (He' : path_exists (fs s') dest = false) by (now rewrite Hfs).
  split; [exact Hfs|]. split; [now apply path_exists_false|].
  pose proof (download_absent h v d Hm Hos s' He') as Ha'.
  destruct (download_bazel_into_directory v d h s') as [r2 s2]. apply Ha'.
Qed.

Lemma download_failure_leaves_no_file_witness :
  let h := host_with ∅ "x86_64" "Linux" serve_broken in
  let '(r, s') := download_bazel_into_directory "7.0.0" bin_dir h (st cache_tree) in
  r = inl NetworkError /\ fs s' !! "/home/u/.bazelisk/bin/bazel-7.0.0-linux-x86_64" = None /\
  log (snd (download_bazel_into_directory "7.0.0" bin_dir h s'))
    = ENet "https://releases.bazel.build/7.0.0/release/bazel-7.0.0-linux-x86_64" :: log s'.
Proof.
  intros h.
  destruct (download_bazel_into_directory "7.0.0" bin_dir h (st cache_tree)) as [r s'] eqn:E.
  assert (Hr : r = inl NetworkError) by (vm_compute in E; now injection E).
  subst r.
  destruct (download_failure_leaves_no_file h "7.0.0" bin_dir (st cache_tree) s' NetworkError
              eq_refl eq_refl ltac:(vm_compute; reflexivity) E) as [_ [Hn Hl]].
  split; [reflexivity|]. split; [exact Hn | exact Hl].
Defined.

(** C7 counterexample: the .bazelversion of the workspace root is a
    directory: the selector raises IsADirectoryError instead of falling
    through to "latest". *)
Lemma selector_pin_directory_raises :
  let s := st (<["/home/u/proj/.bazelversion" := Dir 0 493 own]> with_workspace) in
  fst (decide_which_bazel_version_to_use linux s) = inl IsADirectoryError /\
  fst (decide_which_bazel_version_to_use linux s) <> inr "latest".
Proof. vm_compute. split; [reflexivity | discriminate]. Qed.

(** C7 (corrected): with no override and a workspace root whose
    .bazelversion exists but cannot be read, the read error propagates out
    of the selector (only a missing file, FileNotFoundError, falls through
    to "latest"). *)
Theorem selector_unreadable_pin_propagates (h : host) (s : state) (root : string) :
  environ h !! "USE_BAZEL_VERSION" = None ->
  find_workspace_root None h s = (inr (Some root), s) ->
  root <> EmptyString ->
  (forall f, fs s !! path_join root ".bazelversion" = Some (RegFile f) -> f_readable f = false ->
     decide_which_bazel_version_to_use h s = (inl PermissionError, s)) /\
  (forall t md a, fs s !! path_join root ".bazelversion" = Some (Dir t md a) ->
     decide_which_bazel_version_to_use h s = (inl IsADirectoryError, s)) /\
  (fs s !! path_join root ".bazelversion" = None ->
     decide_which_bazel_version_to_use h s = (inr "latest", s)).
Proof.
  intros Henv Hfind Hroot.
  rewrite (decide_no_override h s (Some root) Henv Hfind). unfold pin_result.
  apply String.eqb_neq in Hroot. rewrite Hroot.
  split; [|split].
  - intros f Hf Hr. rewrite Hf. simpl. now rewrite Hr.
  - intros t md a Hd. now rewrite Hd.
  - intros Hn. now rewrite Hn.
Qed.

Lemma selector_unreadable_pin_propagates_witness :
  decide_which_bazel_version_to_use linux
    (st (<["/home/u/proj/.bazelversion" := rf "6.4.0" 0 false]> with_workspace))
  = (inl PermissionError,
     st (<["/home/u/proj/.bazelversion" := rf "6.4.0" 0 false]> with_workspace)).
Proof.
  set (s := st (<["/home/u/proj/.bazelversion" := rf "6.4.0" 0 false]> with_workspace)).
  assert (Hf : find_workspace_root None linux s = (inr (Some "/home/u/proj"), s))
    by (vm_compute; reflexivity).
  destruct (selector_unreadable_pin_propagates linux s "/home/u/proj" eq_refl Hf
              ltac:(discriminate)) as [A _].
  apply (A (mkFile "6.4.0" 0 false 420 own)); vm_compute; reflexivity.
Defined.

(** C8 counterexample: an empty USE_BAZEL_VERSION is used as the version,
    and a USE_BAZEL_VERSION with slashes puts them into the filename. *)
Lemma empty_override_version_used :
  let h := host_with (<["USE_BAZEL_VERSION" := ""]> ∅) "x86_64" "Linux" serve_ok in
  let h' := host_with (<["USE_BAZEL_VERSION" := "../../x"]> ∅) "x86_64" "Linux" serve_ok in
  fst (decide_which_bazel_version_to_use h (st tree)) = inr "" /\
  fst (resolve_version_label_to_number bazelisk_dir "" h (st tree)) = inr "" /\
  fst (determine_bazel_filename "" h (st tree)) = inr "bazel--linux-x86_64" /\
  fst (decide_which_bazel_version_to_use h' (st tree)) = inr "../../x" /\
  fst (determine_bazel_filename "../../x" h' (st tree)) = inr "bazel-../../x-linux-x86_64".
Proof. vm_compute. repeat split. Qed.

(** C8 (corrected): no step checks the version.  USE_BAZEL_VERSION's value
    is returned as it is; so is the stripped text of a readable
    .bazelversion in the workspace root and that of a fresh readable
    latest_bazel cache; any version other than "latest" passes the
    resolver unchanged.  Only a version obtained from the network (the
    last segment of the redirect URL) is guaranteed free of '/', and it is
    empty when that URL ends in '/'. *)
Theorem version_not_validated (h : host) (s : state) (bd v : string) :
  (environ h !! "USE_BAZEL_VERSION" = Some v ->
     decide_which_bazel_version_to_use h s = (inr v, s)) /\
  (forall root f t,
     environ h !! "USE_BAZEL_VERSION" = None ->
     find_workspace_root None h s = (inr (Some root), s) -> root <> EmptyString ->
     fs s !! path_join root ".bazelversion" = Some (RegFile f) -> f_readable f = true ->
     decode_text (f_data f) = Some t ->
     decide_which_bazel_version_to_use h s = (inr (strip t), s)) /\
  (v <> "latest" -> resolve_version_label_to_number bd v h s = (inr v, s)) /\
  (forall f t,
     fs s !! path_join bd "latest_bazel" = Some (RegFile f) -> f_readable f = true ->
     decode_text (f_data f) = Some t -> (Z.abs (now h - f_mtime f) < 3600)%Z ->
     resolve_version_label_to_number bd "latest" h s = (inr (strip t), s)) /\
  (forall v' s', resolve_latest_version h s = (inr v', s') -> has_slash v' = false) /\
  (forall u, latest_redirect h = Some u -> ends_with_slash u = true ->
     resolve_latest_version h s = (inr EmptyString, mkState (fs s) (ENet latest_url :: log s))).
Proof.
  split; [|split; [|split; [|split; [|split]]]].
  - apply decide_override.
  - intros root f t Henv Hfind Hroot Hf Hr Hd.
    rewrite (decide_no_override h s (Some root) Henv Hfind). unfold pin_result.
    apply String.eqb_neq in Hroot. rewrite Hroot, Hf. simpl. now rewrite Hr, Hd.
  - intros Hv. unfold resolve_version_label_to_number.
    apply String.eqb_neq in Hv. now rewrite Hv.
  - intros f t Hf Hr Hd Ht. exact (resolve_hit bd h s f t Hf Hr Hd Ht).
  - intros v' s' Hr. rewrite resolve_latest_eq in Hr.
    destruct (latest_redirect h) as [u|]; [|discriminate].
    injection Hr as <- _. apply last_segment_no_slash.
  - intros u Hu Hs. rewrite resolve_latest_eq, Hu, (last_segment_trailing u Hs). reflexivity.
Qed.

Lemma version_not_validated_witness :
  let h := host_with (<["USE_BAZEL_VERSION" := ""]> ∅) "x86_64" "Linux" serve_ok in
  let s_pin := st (<["/home/u/proj/.bazelversion" := rf "../x" 0 true]> with_workspace) in
  let s_cache := st (<[latest_cache := rf "" 8200 true]> cache_tree) in
  let h_slash := with_redirect linux "https://github.com/bazelbuild/bazel/releases/tag/" in
  decide_which_bazel_version_to_use h (st tree) = (inr "", st tree) /\
  decide_which_bazel_version_to_use linux s_pin = (inr "../x", s_pin) /\
  resolve_version_label_to_number bazelisk_dir "" h (st tree) = (inr "", st tree) /\
  resolve_version_label_to_number bazelisk_dir "latest" linux s_cache = (inr "", s_cache) /\
  resolve_latest_version h_slash (st tree) = (inr "", mkState tree [ENet latest_url]).
Proof.
  intros h s_pin s_cache h_slash.
  destruct (version_not_validated h (st tree) bazelisk_dir "") as [A [_ [C _]]].
  destruct (version_not_validated linux s_pin bazelisk_dir "") as [_ [B _]].
  destruct (version_not_validated linux s_cache bazelisk_dir "") as [_ [_ [_ [D _]]]].
  destruct (version_not_validated h_slash (st tree) bazelisk_dir "") as [_ [_ [_ [_ [_ F]]]]].
  split; [|split; [|split; [|split]]].
  - apply A. reflexivity.
  - apply (B "/home/u/proj" (mkFile "../x" 0 true 420 own) "../x");
      [reflexivity | vm_compute; reflexivity | discriminate | vm_compute; reflexivity
      | reflexivity | vm_compute; reflexivity].
  - apply C. discriminate.
  - apply (D (mkFile "" 8200 true 420 own) ""); vm_compute; reflexivity.
  - apply (F "https://github.com/bazelbuild/bazel/releases/tag/"); reflexivity.
Defined.

(** C9 counterexample: a current directory 1000 levels deep
    (/a/a/.../a, every level present) with no WORKSPACE anywhere up to the
    root: the walk would need 1001 nested calls, more than the 995 that
    CPython leaves it, so the selector raises RecursionError instead of
    returning "latest". *)
Lemma deep_cwd_walk_raises :
  let h := with_cwd linux (deep 1000) in
  let s := st (deep_tree 1000) in
  environ h !! "USE_BAZEL_VERSION" = None /\
  fs s !! cwd h <> None /\
  (forall d, ancestor (cwd h) d -> path_exists (fs s) (path_join d "WORKSPACE") = false) /\
  decide_which_bazel_version_to_use h s = (inl RecursionError, s) /\
  fst (decide_which_bazel_version_to_use h s) <> inr "latest".
Proof.
  intros h s.
  assert (Hno : forall q, has_W q = true -> path_exists (fs s) q = false)
    by (intros q Hq; apply path_exists_false; exact (deep_tree_W 1000 q Hq)).
  assert (Henv : environ h !! "USE_BAZEL_VERSION" = None) by apply lookup_empty.
  assert (Hf : find_workspace_root None h s = (inl RecursionError, s)).
  { destruct (find_workspace_root_result None h s) as [Hf | [o Ho]]; [exact Hf|].
    exfalso.
    assert (Hr : fst (find_workspace_root None h s) = inl RecursionError).
    { rewrite find_workspace_root_eq. apply find_aux_recursion.
      intros k Hk. change (walk_frames h) with 995%nat in Hk.
      change (cwd h) with (deep 1000).
      replace 1000%nat with (k + S (999 - k))%nat by lia.
      rewrite up_deep. split; [apply Hno, has_W_join|].
      replace (999 - k)%nat with (S (998 - k)) by lia. rewrite dirname_deep.
      intros E. apply (f_equal String.length) in E. rewrite !deep_length in E. lia. }
    rewrite Ho in Hr. discriminate. }
  split; [exact Henv|]. split; [|split; [|split]].
  - change (fs s !! cwd h) with (<[deep 1000 := Dir 0 493 own]> (deep_tree 999) !! deep 1000).
    rewrite lookup_insert_eq. discriminate.
  - intros d Hd. change (cwd h) with (deep 1000) in Hd.
    destruct (ancestor_deep 1000 d Hd) as [-> | [j ->]]; apply Hno, has_W_join.
  - exact (decide_walk_error h s Henv Hf).
  - rewrite (decide_walk_error h s Henv Hf). discriminate.
Qed.

(** C9 (corrected): the walk always stops: it returns a result or raises
    RecursionError, and a start directory shorter (in characters) than the
    frames available cannot exhaust them, since each step moves to a
    strictly shorter parent or stops when the parent is the directory
    itself.  With no override and no WORKSPACE in any ancestor of the
    current directory the selector returns "latest" or raises
    RecursionError, the latter exactly when none of the first
    [walk_frames] directories up from the current one is its own
    parent. *)
Theorem workspace_walk_terminates (h : host) (s : state) :
  (forall root, find_workspace_root (Some root) h s = (inl RecursionError, s) \/
                exists o, find_workspace_root (Some root) h s = (inr o, s)) /\
  (forall root, (String.length root < walk_frames h)%nat ->
                exists o, find_workspace_root (Some root) h s = (inr o, s)) /\
  (environ h !! "USE_BAZEL_VERSION" = None ->
   (forall d, ancestor (cwd h) d -> path_exists (fs s) (path_join d "WORKSPACE") = false) ->
   (decide_which_bazel_version_to_use h s = (inr "latest", s) \/
    decide_which_bazel_version_to_use h s = (inl RecursionError, s)) /\
   (decide_which_bazel_version_to_use h s = (inl RecursionError, s) <->
    forall k, (k < walk_frames h)%nat -> dirname (up k (cwd h)) <> up k (cwd h))).
Proof.
  split; [|split].
  - intros root. apply find_workspace_root_result.
  - intros root Hlt. rewrite find_workspace_root_eq. now apply find_aux_total.
  - intros Henv Hno.
    assert (Hiff : fst (find_workspace_root None h s) = inl RecursionError <->
                   forall k, (k < walk_frames h)%nat -> dirname (up k (cwd h)) <> up k (cwd h)).
    { rewrite find_workspace_root_eq, find_aux_recursion. split.
      - intros Hall k Hk. exact (proj2 (Hall k Hk)).
      - intros Hall k Hk. split; [apply Hno, ancestor_up | exact (Hall k Hk)]. }
    destruct (find_workspace_root_result None h s) as [Hf | [o Ho]].
    + rewrite (decide_walk_error h s Henv Hf). split; [now right|].
      rewrite <- Hiff, Hf. split; reflexivity.
    + assert (Ho' : o = None).
      { pose proof Ho as Hs. rewrite find_workspace_root_eq in Hs.
        apply find_aux_spec in Hs. destruct o as [r|]; [|reflexivity].
        destruct Hs as [Ha Hw]. rewrite (Hno r Ha) in Hw. discriminate. }
      subst o. rewrite (decide_no_override h s None Henv Ho). simpl.
      split; [now left|].
      rewrite <- Hiff, Ho. split; discriminate.
Qed.

Lemma workspace_walk_terminates_witness :
  (exists o, find_workspace_root (Some "/home/u/proj") linux (st tree) = (inr o, st tree)) /\
  (decide_which_bazel_version_to_use linux (st tree) = (inr "latest", st tree) \/
   decide_which_bazel_version_to_use linux (st tree) = (inl RecursionError, st tree)).
Proof.
  destruct (workspace_walk_terminates linux (st tree)) as [_ [A B]].
  split; [apply A; vm_compute; lia|].
  apply B; [reflexivity|].
  intros d Hd. simpl in Hd.
  repeat (destruct (ancestor_inv _ _ Hd) as [->|Hd']; [vm_compute; reflexivity|];
          clear Hd; rename Hd' into Hd; vm_compute in Hd).
  rewrite (ancestor_fixed "/" d eq_refl Hd). vm_compute. reflexivity.
Defined.

(** C10: every call that returns a path leaves a node there with mode
    0o755, also when the file was already present and nothing was
    downloaded. *)
Theorem download_sets_mode_755 (h : host) (v d p : string) (s s' : state) :
  download_bazel_into_directory v d h s = (inr p, s') ->
  exists n, fs s' !! p = Some n /\ node_mode n = 493%Z.
Proof.
  intros Hd. destruct (download_inr_node h v d p s s' Hd) as [_ [n [Hn [Hmode _]]]].
  eauto.
Qed.

Lemma download_sets_mode_755_witness :
  let s := st (<["/home/u/.bazelisk/bin/bazel-7.0.0-linux-x86_64" := rf "old" 0 true]> cache_tree) in
  exists n, fs (snd (download_bazel_into_directory "7.0.0" bin_dir linux s))
              !! "/home/u/.bazelisk/bin/bazel-7.0.0-linux-x86_64" = Some n /\ node_mode n = 493%Z.
Proof.
  intros s.
  apply (download_sets_mode_755 linux "7.0.0" bin_dir _ s).
  vm_compute. reflexivity.
Defined.

End Claims.

(** ** Further properties of the program *)
Module Extras.
Import PyStr Py Bazelisk PyStrFacts ProgramFacts Fixtures.

(** The bytes the read loop collects from a stream: every block up to the
    first empty one (or the end of the stream); [None] when the connection
    breaks before that. *)
Fixpoint received (stream : list chunk) : option string :=
  match stream with
  | [] => Some EmptyString
  | ChunkFail :: _ => None
  | Chunk b :: rest =>
      if String.eqb b EmptyString then Some EmptyString
      else option_map (String.append b) (received rest)
  end.

Lemma concat_snoc (l : list string) (b : string) :
  String.concat "" (app l [b]) = String.concat "" l ++ b.
Proof.
  induction l as [|x l IH]; [reflexivity|].
  change (app (x :: l) [b]) with (x :: app l [b]).
  destruct l as [|y l].
  - reflexivity.
  - change (String.concat "" (x :: app (y :: l) [b]))
      with (x ++ "" ++ String.concat "" (app (y :: l) [b])).
    change (String.concat "" (x :: y :: l)) with (x ++ "" ++ String.concat "" (y :: l)).
    rewrite IH, !append_nil_l, append_assoc. reflexivity.
Qed.

Lemma read_blocks_received (n : Z) (blocks : list string) (total : Z) (stream : list chunk)
    (h : host) (s : state) :
  n <> 0%Z ->
  read_blocks n blocks total stream h s =
  (match received stream with
   | Some d => inr (String.concat "" blocks ++ d)
   | None => inl NetworkError
   end, s).
Proof.
  intros Hn. apply Z.eqb_neq in Hn.
  revert blocks total; induction stream as [|[b|] rest IH]; intros blocks total; simpl.
  - unfold ret. rewrite Hn, concat_snoc. reflexivity.
  - unfold ret. rewrite Hn.
    destruct (String.eqb b EmptyString) eqn:Eb.
    + apply String.eqb_eq in Eb. subst b. simpl. rewrite concat_snoc. reflexivity.
    + assert (Hl : Nat.eqb (String.length b) 0 = false).
      { destruct b; [discriminate | reflexivity]. }
      rewrite Hl, IH, concat_snoc.
      destruct (received rest); simpl; [now rewrite append_assoc | reflexivity].
  - reflexivity.
Qed.

Lemma mkdir_inr (p : string) (h : host) (s s' : state) :
  mkdir p h s = (inr tt, s') -> fs s' = <[p := Dir (now h) 493 own]> (fs s).
Proof.
  intros Hm. destruct (mkdir_cases p h s) as [[e He] | [_ He]]; rewrite He in Hm.
  - discriminate.
  - now injection Hm as <-.
Qed.

Lemma mkdir_preserves (p q : string) (n : node) (h : host) (s : state) :
  fs s !! q = Some n -> fs (snd (mkdir p h s)) !! q = Some n.
Proof.
  intros Hq. destruct (mkdir_cases p h s) as [[e ->] | [Hp ->]]; [exact Hq|].
  simpl. rewrite lookup_insert_ne; [exact Hq | congruence].
Qed.

Lemma makedirs_aux_preserves (fuel : nat) (p q : string) (n : node) (h : host) (s : state) :
  fs s !! q = Some n -> fs (snd (makedirs_aux fuel p h s)) !! q = Some n.
Proof.
  revert p s; induction fuel as [|fuel IH]; intros p s Hq; [exact Hq|].
  cbn [makedirs_aux]. rewrite (bind_inr _ _ _ _ _ _ (get_fs_eq h s)).
  destruct (fs s !! p) as [[f|t md a]|]; [exact Hq|exact Hq|].
  destruct (negb (String.eqb (dirname p) EmptyString) && negb (String.eqb (dirname p) p)
            && negb (path_exists (fs s) (dirname p))).
  - specialize (IH (dirname p) s Hq).
    destruct (makedirs_aux fuel (dirname p) h s) as [[e|[]] s1] eqn:E.
    + rewrite (bind_inl _ _ _ _ _ _ E). exact IH.
    + rewrite (bind_inr _ _ _ _ _ _ E). now apply mkdir_preserves.
  - rewrite (bind_inr _ _ _ _ _ _ (ret_eq tt h s)). now apply mkdir_preserves.
Qed.

Lemma makedirs_aux_dir (fuel : nat) (p : string) (h : host) (s s' : state) :
  makedirs_aux (S fuel) p h s = (inr tt, s') -> exists t md a, fs s' !! p = Some (Dir t md a).
Proof.
  cbn [makedirs_aux]. rewrite (bind_inr _ _ _ _ _ _ (get_fs_eq h s)).
  destruct (fs s !! p) as [[f|t md a]|] eqn:Ep.
  - discriminate.
  - unfold ret. injection 1 as <-. eauto.
  - destruct (negb (String.eqb (dirname p) EmptyString) && negb (String.eqb (dirname p) p)
              && negb (path_exists (fs s) (dirname p))).
    + destruct (makedirs_aux fuel (dirname p) h s) as [[e|[]] s1] eqn:E.
      * rewrite (bind_inl _ _ _ _ _ _ E). discriminate.
      * rewrite (bind_inr _ _ _ _ _ _ E). intros Hm. apply mkdir_inr in Hm.
        rewrite Hm, lookup_insert_eq. eauto.
    + rewrite (bind_inr _ _ _ _ _ _ (ret_eq tt h s)). intros Hm. apply mkdir_inr in Hm.
      rewrite Hm, lookup_insert_eq. eauto.
Qed.

Lemma fetch_eq (url : string) (h : host) (s : state) :
  fetch url h s =
  (match serve h url with
   | None => inl NetworkError
   | Some u =>
       match content_length u with
       | None => inl TypeError
       | Some n => fst (read_blocks n [] 0%Z (body u) h (mkState (fs s) (ENet url :: log s)))
       end
   end, mkState (fs s) (ENet url :: log s)).
Proof.
  unfold fetch, emit, ask, bind, raise. cbv beta iota zeta. simpl.
  destruct (serve h url) as [u|]; [|reflexivity].
  destruct (content_length u) as [n|]; [|reflexivity].
  pose proof (read_blocks_state n [] 0%Z (body u) h (mkState (fs s) (ENet url :: log s))) as Hr.
  destruct (read_blocks _ _ _ _ _ _). simpl in Hr. now subst.
Qed.

Section DownloadMore.
Variables (h : host) (v d : string).
Hypothesis Hm : machine h = "x86_64".
Hypothesis Hos : supported_os (lower (system h)) = true.

Let dest := path_join d (artifact_name h v).
Let url := release_url v (artifact_name h v).

Lemma download_fetch_inl (s s1 : state) (e : exc) :
  path_exists (fs s) dest = false ->
  fetch url h s = (inl e, s1) ->
  download_bazel_into_directory v d h s = (inl e, s1).
Proof.
  intros He Ef. rewrite (download_supported h s v d Hm Hos). cbv zeta. fold dest url.
  rewrite (bind_inr _ _ _ _ _ _ (exists_eq dest h s)), He. simpl negb. cbv iota.
  exact (bind_inl _ _ _ _ _ _ (bind_inl _ _ _ _ _ _ Ef)).
Qed.

Lemma download_fresh_ok (s : state) (u : response) (n : Z) (data : string) :
  path_exists (fs s) dest = false -> writable (fs s) dest = true ->
  serve h url = Some u -> content_length u = Some n -> n <> 0%Z ->
  received (body u) = Some data ->
  download_bazel_into_directory v d h s =
  (inr dest, mkState (<[dest := RegFile (mkFile data (now h) true 493 own)]> (fs s))
                     (ENet url :: log s)).
Proof.
  intros He Hw Hu Hn Hn0 Hdata.
  assert (Ef : fetch url h s = (inr data, mkState (fs s) (ENet url :: log s))).
  { rewrite fetch_eq, Hu, Hn, (read_blocks_received _ _ _ _ _ _ Hn0), Hdata. reflexivity. }
  rewrite (download_supported h s v d Hm Hos). cbv zeta. fold dest url.
  rewrite (bind_inr _ _ _ _ _ _ (exists_eq dest h s)), He. simpl negb. cbv iota.
  rewrite (bind_bind_inr _ _ _ _ _ _ _ Ef).
  apply path_exists_false in He.
  assert (Ew : write_file dest data h (mkState (fs s) (ENet url :: log s)) =
               (inr tt, mkState (<[dest := RegFile (mkFile data (now h) true 420 own)]> (fs s))
                                (ENet url :: log s))).
  { rewrite (write_file_ok dest data h (mkState (fs s) (ENet url :: log s)) Hw).
    unfold written. simpl. now rewrite He. }
  rewrite (bind_inr _ _ _ _ _ _ Ew).
  unfold chmod, get_fs, put_fs, bind, ret. simpl.
  rewrite lookup_insert_eq. simpl. now rewrite insert_insert_eq.
Qed.

End DownloadMore.

(** A successful download leaves mode 0o755 on the returned path. *)
Lemma download_inr_mode (h : host) (v d p : string) (s s' : state) :
  download_bazel_into_directory v d h s = (inr p, s') ->
  exists n, fs s' !! p = Some n /\ node_mode n = 493%Z.
Proof.
  intros Hd. destruct (Claims.download_inr_node h v d p s s' Hd) as [_ [n [Hn [Hmode _]]]].
  eauto.
Qed.

Lemma download_inr_path (h : host) (v d p : string) (s s' : state) :
  download_bazel_into_directory v d h s = (inr p, s') ->
  p = path_join d (artifact_name h v) /\ log s' = log s \/
  p = path_join d (artifact_name h v) /\ log s' = ENet (release_url v (artifact_name h v)) :: log s.
Proof.
  intros Hd. destruct (Claims.download_inr_supported h s s' v d p Hd) as [Hm Hos].
  destruct (path_exists (fs s) (path_join d (artifact_name h v))) eqn:He.
  - pose proof (download_present_any h v d Hm Hos s He) as Ha. rewrite Hd in Ha.
    destruct Ha as [Hl [-> _]]. left. split; [reflexivity | exact Hl].
  - pose proof (download_absent h v d Hm Hos s He) as Ha. rewrite Hd in Ha.
    destruct Ha as [Hl [-> _]]. right. split; [reflexivity | exact Hl].
Qed.

Lemma resolve_miss_absent (bd u : string) (h : host) (s : state) :
  let c := path_join bd "latest_bazel" in
  fs s !! c = None -> writable (fs s) c = true ->
  latest_redirect h = Some u ->
  resolve_version_label_to_number bd "latest" h s =
  (inr (last_segment u),
   mkState (<[c := RegFile (mkFile (last_segment u) (now h) true 420 own)]> (fs s))
           (ENet latest_url :: log s)).
Proof.
  intros c Hn Hw Hu. destruct (resolve_miss bd h s u (or_introl Hn) Hu) as [A _].
  rewrite (A Hw). unfold written. fold c. now rewrite Hn.
Qed.

(** [main]'s result when the download step returns. *)
Lemma main_after_download (argv : list string) (h : host) (s s4 : state) (v : string) :
  let bd := path_join (home h) ".bazelisk" in
  let bin := path_join bd "bin" in
  (bind (download_bazel_into_directory v bin)
        (fun bazel_path => emit (ESpawn bazel_path (tl argv)) ;;;
                           ret (spawn_exit h bazel_path (tl argv)))) h s4 =
  match download_bazel_into_directory v bin h s4 with
  | (inl e, s5) => (inl e, s5)
  | (inr p, s5) => (inr (spawn_exit h p (tl argv)), mkState (fs s5) (ESpawn p (tl argv) :: log s5))
  end.
Proof. intros bd bin. unfold bind at 1. now destruct (download_bazel_into_directory v bin h s4) as [[e|p] s5]. Qed.

(** X1: with a nonzero Content-Length, the download request returns the
    blocks read up to the first empty read (or the end of the stream),
    joined; a broken connection before that raises NetworkError.  Either
    way the request is logged once and the filesystem is untouched. *)
Theorem fetch_collects_stream (url : string) (h : host) (s : state) (u : response) (n : Z) :
  serve h url = Some u -> content_length u = Some n -> n <> 0%Z ->
  fetch url h s =
  (match received (body u) with
   | Some data => inr data
   | None => inl NetworkError
   end, mkState (fs s) (ENet url :: log s)).
Proof.
  intros Hu Hn Hn0. rewrite fetch_eq, Hu, Hn, (read_blocks_received _ _ _ _ _ _ Hn0).
  simpl. now destruct (received (body u)).
Qed.

Lemma fetch_collects_stream_witness :
  fetch "https://x/a" linux (st tree) = (inr "abc", mkState tree [ENet "https://x/a"]) /\
  fetch "https://x/a" (host_with ∅ "x86_64" "Linux" serve_broken) (st tree)
    = (inl NetworkError, mkState tree [ENet "https://x/a"]).
Proof.
  split.
  - exact (fetch_collects_stream "https://x/a" linux (st tree) (mkResponse (Some 3%Z) [Chunk "abc"])
             3%Z eq_refl eq_refl ltac:(discriminate)).
  - exact (fetch_collects_stream "https://x/a" (host_with ∅ "x86_64" "Linux" serve_broken) (st tree)
             (mkResponse (Some 2048%Z) [Chunk "ab"; ChunkFail]) 2048%Z eq_refl eq_refl ltac:(discriminate)).
Defined.

(** X2: a response with Content-Length 0 makes the download fail with
    ZeroDivisionError (the progress bar divides by it), even for an empty
    body, unless the connection breaks at once; nothing is written. *)
Theorem download_zero_length_fails (h : host) (v d : string) (s : state) (u : response) :
  machine h = "x86_64" -> supported_os (lower (system h)) = true ->
  let dest := path_join d (artifact_name h v) in
  let url := release_url v (artifact_name h v) in
  path_exists (fs s) dest = false ->
  serve h url = Some u -> content_length u = Some 0%Z ->
  (forall rest, body u <> ChunkFail :: rest) ->
  download_bazel_into_directory v d h s =
  (inl ZeroDivisionError, mkState (fs s) (ENet url :: log s)).
Proof.
  intros Hm Hos. cbv zeta. intros He Hu Hn Hb.
  apply (download_fetch_inl h v d Hm Hos); [exact He|].
  rewrite fetch_eq, Hu, Hn.
  destruct (body u) as [|[b|] rest]; [reflexivity|reflexivity|].
  exfalso. exact (Hb rest eq_refl).
Qed.

Lemma download_zero_length_fails_witness :
  let h := host_with ∅ "x86_64" "Linux" (fun _ => Some (mkResponse (Some 0%Z) [])) in
  download_bazel_into_directory "7.0.0" bin_dir h (st cache_tree) =
  (inl ZeroDivisionError,
   mkState cache_tree [ENet "https://releases.bazel.build/7.0.0/release/bazel-7.0.0-linux-x86_64"]).
Proof.
  intros h.
  exact (download_zero_length_fails h "7.0.0" bin_dir (st cache_tree) (mkResponse (Some 0%Z) [])
           eq_refl eq_refl ltac:(vm_compute; reflexivity) eq_refl eq_refl
           ltac:(intros rest; discriminate)).
Defined.

(** X3: a response without Content-Length makes the download fail with
    TypeError ([int(None)]) before any byte is read; nothing is written. *)
Theorem download_missing_length_fails (h : host) (v d : string) (s : state) (u : response) :
  machine h = "x86_64" -> supported_os (lower (system h)) = true ->
  let dest := path_join d (artifact_name h v) in
  let url := release_url v (artifact_name h v) in
  path_exists (fs s) dest = false ->
  serve h url = Some u -> content_length u = None ->
  download_bazel_into_directory v d h s =
  (inl TypeError, mkState (fs s) (ENet url :: log s)).
Proof.
  intros Hm Hos. cbv zeta. intros He Hu Hn.
  apply (download_fetch_inl h v d Hm Hos); [exact He|].
  rewrite fetch_eq, Hu, Hn. reflexivity.
Qed.

Lemma download_missing_length_fails_witness :
  let h := host_with ∅ "x86_64" "Linux" (fun _ => Some (mkResponse None [Chunk "abc"])) in
  download_bazel_into_directory "7.0.0" bin_dir h (st cache_tree) =
  (inl TypeError,
   mkState cache_tree [ENet "https://releases.bazel.build/7.0.0/release/bazel-7.0.0-linux-x86_64"]).
Proof.
  intros h.
  exact (download_missing_length_fails h "7.0.0" bin_dir (st cache_tree) (mkResponse None [Chunk "abc"])
           eq_refl eq_refl ltac:(vm_compute; reflexivity) eq_refl eq_refl).
Defined.

(** X4: a fresh download into an existing directory writes exactly the
    bytes received as a new file with mode 0o755, changes no other path,
    logs one request and returns the destination. *)
Theorem download_writes_received_bytes (h : host) (v d : string) (s : state)
    (u : response) (n : Z) (data : string) :
  machine h = "x86_64" -> supported_os (lower (system h)) = true ->
  let dest := path_join d (artifact_name h v) in
  let url := release_url v (artifact_name h v) in
  path_exists (fs s) dest = false -> writable (fs s) dest = true ->
  serve h url = Some u -> content_length u = Some n -> n <> 0%Z ->
  received (body u) = Some data ->
  download_bazel_into_directory v d h s =
  (inr dest, mkState (<[dest := RegFile (mkFile data (now h) true 493 own)]> (fs s))
                     (ENet url :: log s)).
Proof. intros Hm Hos dest url. apply download_fresh_ok; assumption. Qed.

Lemma download_writes_received_bytes_witness :
  let h := host_with ∅ "x86_64" "Linux"
             (fun _ => Some (mkResponse (Some 6%Z) [Chunk "abc"; Chunk "def"; Chunk ""; Chunk "zz"])) in
  download_bazel_into_directory "7.0.0" bin_dir h (st cache_tree) =
  (inr "/home/u/.bazelisk/bin/bazel-7.0.0-linux-x86_64",
   mkState (<["/home/u/.bazelisk/bin/bazel-7.0.0-linux-x86_64" :=
                RegFile (mkFile "abcdef" 10000 true 493 own)]> cache_tree)
           [ENet "https://releases.bazel.build/7.0.0/release/bazel-7.0.0-linux-x86_64"]).
Proof.
  intros h.
  exact (download_writes_received_bytes h "7.0.0" bin_dir (st cache_tree)
           (mkResponse (Some 6%Z) [Chunk "abc"; Chunk "def"; Chunk ""; Chunk "zz"]) 6%Z "abcdef"
           eq_refl eq_refl ltac:(vm_compute; reflexivity)
           ltac:(vm_compute; reflexivity) eq_refl eq_refl ltac:(discriminate) eq_refl).
Defined.

(** X5: [os.makedirs(p, exist_ok=True)] raises FileExistsError when [p]
    is a regular file and leaves everything as it was; when it returns,
    [p] is a directory. *)
Theorem makedirs_makes_dir (p : string) (h : host) (s : state) :
  (forall f, fs s !! p = Some (RegFile f) -> makedirs p h s = (inl FileExistsError, s)) /\
  (forall s', makedirs p h s = (inr tt, s') -> exists t md a, fs s' !! p = Some (Dir t md a)).
Proof.
  split.
  - intros f Hf. unfold makedirs. cbn [makedirs_aux].
    rewrite (bind_inr _ _ _ _ _ _ (get_fs_eq h s)), Hf. reflexivity.
  - intros s' Hm. exact (makedirs_aux_dir _ p h s s' Hm).
Qed.

Lemma makedirs_makes_dir_witness :
  (exists t md a, fs (snd (makedirs bin_dir linux (st tree))) !! bin_dir = Some (Dir t md a)) /\
  makedirs bin_dir linux (st (<[bin_dir := rf "" 0 true]> cache_tree))
    = (inl FileExistsError, st (<[bin_dir := rf "" 0 true]> cache_tree)).
Proof.
  destruct (makedirs_makes_dir bin_dir linux (st tree)) as [_ B].
  destruct (makedirs_makes_dir bin_dir linux (st (<[bin_dir := rf "" 0 true]> cache_tree))) as [A _].
  split.
  - apply (B (snd (makedirs bin_dir linux (st tree)))). vm_compute. reflexivity.
  - apply (A (mkFile "" 0 true 420 own)). vm_compute. reflexivity.
Defined.

(** X6: [os.makedirs] only adds directories: every path present before,
    file or directory, is still there unchanged afterwards, whether it
    succeeds or raises. *)
Theorem makedirs_preserves (p q : string) (n : node) (h : host) (s : state) :
  fs s !! q = Some n -> fs (snd (makedirs p h s)) !! q = Some n.
Proof. apply makedirs_aux_preserves. Qed.

Lemma makedirs_preserves_witness :
  fs (snd (makedirs bin_dir linux (st with_workspace))) !! "/home/u/proj/WORKSPACE" = Some (rf "" 0 true).
Proof. apply makedirs_preserves. reflexivity. Defined.

(** X7: when [main] returns, its exit code is the one of the binary it
    spawned, with [argv[1:]] as arguments; that binary is
    ~/.bazelisk/bin/bazel-<version>-<os>-x86_64 for the resolved version,
    has mode 0o755, and the spawn is the last thing logged. *)
Theorem main_exit_code (argv : list string) (h : host) (s s' : state) (c : Z) :
  main argv h s = (inr c, s') ->
  exists v p,
    p = path_join (path_join (path_join (home h) ".bazelisk") "bin") (artifact_name h v) /\
    c = spawn_exit h p (tl argv) /\
    (exists l, log s' = ESpawn p (tl argv) :: l) /\
    exists n, fs s' !! p = Some n /\ node_mode n = 493%Z.
Proof.
  intros Hmain. unfold main in Hmain. rewrite (bind_inr _ _ _ _ _ _ (ask_eq h s)) in Hmain.
  cbv beta zeta in Hmain.
  set (bd := path_join (home h) ".bazelisk") in *.
  destruct (makedirs bd h s) as [[e|[]] s1] eqn:E1.
  { rewrite (bind_inl _ _ _ _ _ _ E1) in Hmain. discriminate. }
  rewrite (bind_inr _ _ _ _ _ _ E1) in Hmain. cbv beta in Hmain.
  destruct (decide_which_bazel_version_to_use h s1) as [[e|v] s2] eqn:E2.
  { rewrite (bind_inl _ _ _ _ _ _ E2) in Hmain. discriminate. }
  rewrite (bind_inr _ _ _ _ _ _ E2) in Hmain.
  destruct (resolve_version_label_to_number bd v h s2) as [[e|v'] s3] eqn:E3.
  { rewrite (bind_inl _ _ _ _ _ _ E3) in Hmain. discriminate. }
  rewrite (bind_inr _ _ _ _ _ _ E3) in Hmain. cbv zeta in Hmain.
  set (bin := path_join bd "bin") in *.
  destruct (makedirs bin h s3) as [[e|[]] s4] eqn:E4.
  { rewrite (bind_inl _ _ _ _ _ _ E4) in Hmain. discriminate. }
  rewrite (bind_inr _ _ _ _ _ _ E4) in Hmain. cbv beta in Hmain.
  pose proof (main_after_download argv h s s4 v') as MA. cbv zeta in MA.
  fold bd bin in MA. rewrite MA in Hmain.
  destruct (download_bazel_into_directory v' bin h s4) as [[e|p] s5] eqn:E5; [discriminate|].
  injection Hmain as <- <-.
  destruct (download_inr_path h v' bin p s4 s5 E5) as [[-> _]|[-> _]];
    destruct (download_inr_mode h v' bin _ s4 s5 E5) as [n [Hn Hmode]];
    exists v', (path_join bin (artifact_name h v'));
    (split; [reflexivity|]); (split; [reflexivity|]); (split; [eexists; reflexivity|]);
    exists n; split; assumption.
Qed.

Lemma main_exit_code_witness :
  let h := host_with (<["USE_BAZEL_VERSION" := "7.0.0"]> ∅) "x86_64" "Linux" serve_ok in
  exists v p,
    p = path_join (path_join (path_join (home h) ".bazelisk") "bin") (artifact_name h v) /\
    0%Z = spawn_exit h p ["build"] /\
    (exists l, log (snd (main ["bazelisk"; "build"] h (st tree))) = ESpawn p ["build"] :: l) /\
    exists n, fs (snd (main ["bazelisk"; "build"] h (st tree))) !! p = Some n /\ node_mode n = 493%Z.
Proof.
  intros h.
  exact (main_exit_code ["bazelisk"; "build"] h (st tree) _ 0%Z ltac:(vm_compute; reflexivity)).
Defined.

(** X8: with USE_BAZEL_VERSION set to a version other than "latest" and
    that version's binary already in ~/.bazelisk/bin, [main] makes no
    request at all: it logs nothing but, at most, the spawn of that
    binary. *)
Theorem main_pinned_cached_offline (argv : list string) (h : host) (s : state) (v : string) (n : node) :
  environ h !! "USE_BAZEL_VERSION" = Some v -> v <> "latest" ->
  let p := path_join (path_join (path_join (home h) ".bazelisk") "bin") (artifact_name h v) in
  fs s !! p = Some n ->
  log (snd (main argv h s)) = log s \/ log (snd (main argv h s)) = ESpawn p (tl argv) :: log s.
Proof.
  intros Henv Hv. cbv zeta. intros Hn.
  unfold main. rewrite (bind_inr _ _ _ _ _ _ (ask_eq h s)). cbv beta zeta.
  set (bd := path_join (home h) ".bazelisk") in *.
  set (bin := path_join bd "bin") in *.
  set (p := path_join bin (artifact_name h v)) in *.
  pose proof (makedirs_log bd h s) as L1.
  assert (P1 : fs (snd (makedirs bd h s)) !! p = Some n)
    by exact (makedirs_aux_preserves _ bd p n h s Hn).
  destruct (makedirs bd h s) as [[e|[]] s1] eqn:E1; simpl in L1, P1.
  { rewrite (bind_inl _ _ _ _ _ _ E1). left. exact L1. }
  rewrite (bind_inr _ _ _ _ _ _ E1). cbv beta.
  rewrite (bind_inr _ _ _ _ _ _ (decide_override h s1 v Henv)).
  assert (Hr : resolve_version_label_to_number bd v h s1 = (inr v, s1)).
  { unfold resolve_version_label_to_number. apply String.eqb_neq in Hv. rewrite Hv. reflexivity. }
  rewrite (bind_inr _ _ _ _ _ _ Hr). cbv zeta. fold bin.
  pose proof (makedirs_log bin h s1) as L4.
  assert (P4 : fs (snd (makedirs bin h s1)) !! p = Some n)
    by exact (makedirs_aux_preserves _ bin p n h s1 P1).
  destruct (makedirs bin h s1) as [[e|[]] s4] eqn:E4; simpl in L4, P4.
  { rewrite (bind_inl _ _ _ _ _ _ E4). left. simpl. congruence. }
  rewrite (bind_inr _ _ _ _ _ _ E4). cbv beta.
  pose proof (main_after_download argv h s s4 v) as MA. cbv zeta in MA.
  fold bd bin in MA. rewrite MA.
  destruct (String.eqb (machine h) "x86_64") eqn:Hm;
    [destruct (supported_os (lower (system h))) eqn:Hos|].
  - apply String.eqb_eq in Hm.
    assert (He : path_exists (fs s4) p = true) by (apply path_exists_true; eauto).
    pose proof (download_present_any h v bin Hm Hos s4 He) as Ha. fold p in Ha.
    destruct (download_bazel_into_directory v bin h s4) as [[e|p'] s5];
      destruct Ha as [Hl Hres]; simpl.
    + left. congruence.
    + right. destruct Hres as [-> _]. congruence.
  - destruct (download_unsupported h s4 v bin (or_intror Hos)) as [msg Hd].
    rewrite Hd. left. simpl. congruence.
  - apply String.eqb_neq in Hm.
    destruct (download_unsupported h s4 v bin (or_introl Hm)) as [msg Hd].
    rewrite Hd. left. simpl. congruence.
Qed.

Lemma main_pinned_cached_offline_witness :
  let h := host_with (<["USE_BAZEL_VERSION" := "6.4.0"]> ∅) "x86_64" "Linux" serve_ok in
  let s0 := st (<["/home/u/.bazelisk/bin/bazel-6.4.0-linux-x86_64" := rf "bin" 0 true]> cache_tree) in
  log (snd (main ["bazelisk"; "info"] h s0)) = log s0 \/
  log (snd (main ["bazelisk"; "info"] h s0)) =
    ESpawn "/home/u/.bazelisk/bin/bazel-6.4.0-linux-x86_64" ["info"] :: log s0.
Proof.
  intros h s0.
  exact (main_pinned_cached_offline ["bazelisk"; "info"] h s0 "6.4.0" (rf "bin" 0 true)
           eq_refl ltac:(discriminate) ltac:(vm_compute; reflexivity)).
Defined.

(** X9: the "latest" cache round trip.  With no cache file yet and a
    cache directory the process may write to, resolving "latest" asks the
    network once and writes the tag it got; resolving "latest" again right
    away reads that file back (decoded, stripped), without a request and
    without changing anything. *)
Theorem latest_cache_round_trip (bd u t : string) (h : host) (s : state) :
  let c := path_join bd "latest_bazel" in
  fs s !! c = None -> writable (fs s) c = true ->
  latest_redirect h = Some u -> decode_text (last_segment u) = Some t ->
  let '(r, s1) := resolve_version_label_to_number bd "latest" h s in
  r = inr (last_segment u) /\ log s1 = ENet latest_url :: log s /\
  resolve_version_label_to_number bd "latest" h s1 = (inr (strip t), s1).
Proof.
  intros c Hn Hw Hu Ht.
  pose proof (resolve_miss_absent bd u h s Hn Hw Hu) as Hm. cbv zeta in Hm. fold c in Hm.
  rewrite Hm. split; [reflexivity|]. split; [reflexivity|].
  apply (resolve_hit bd h _ (mkFile (last_segment u) (now h) true 420 own)).
  - apply lookup_insert_eq.
  - reflexivity.
  - exact Ht.
  - simpl. rewrite Z.sub_diag. unfold ONE_HOUR. lia.
Qed.

Lemma latest_cache_round_trip_witness :
  let '(r, s1) := resolve_version_label_to_number bazelisk_dir "latest" linux (st cache_tree) in
  r = inr "7.0.0" /\ log s1 = [ENet latest_url] /\
  resolve_version_label_to_number bazelisk_dir "latest" linux s1 = (inr "7.0.0", s1).
Proof.
  exact (latest_cache_round_trip bazelisk_dir
           "https://github.com/bazelbuild/bazel/releases/tag/7.0.0" "7.0.0" linux (st cache_tree)
           eq_refl ltac:(vm_compute; reflexivity) eq_refl ltac:(vm_compute; reflexivity)).
Defined.

(** X10: the workspace walk only reads, and the only exception it raises
    is RecursionError; the root it returns is the starting directory or
    one of its ancestors and holds a WORKSPACE file, and when it returns
    None no ancestor holds one. *)
Theorem workspace_root_sound (root : string) (h : host) (s : state) :
  let '(r, s') := find_workspace_root (Some root) h s in
  s' = s /\
  match r with
  | inr (Some w) => ancestor root w /\ path_exists (fs s) (path_join w "WORKSPACE") = true
  | inr None => forall d, ancestor root d -> path_exists (fs s) (path_join d "WORKSPACE") = false
  | inl e => e = RecursionError
  end.
Proof.
  destruct (find_workspace_root_result (Some root) h s) as [Hf | [o Ho]].
  - rewrite Hf. split; reflexivity.
  - rewrite Ho. split; [reflexivity|].
    rewrite find_workspace_root_eq in Ho. exact (find_aux_spec _ root h s o Ho).
Qed.

End Extras.
